(** * Churn predictor API: a shallow embedding of [main.py]

    The development follows the layout of the service:

    - Python string helpers used by the field validators
      ([str.strip], [str.title]);
    - the [CustomerData] request schema: aliases, numeric bounds and the
      three enum validators;
    - the [predict] handler with its [try]/[except] safety net, written in
      a small trace-and-exception monad;
    - the request pipeline that FastAPI runs around a handler (decoding of
      the body, dependencies, body validation, handler, rendering of the
      response);
    - the credential store and the token service that [main.py] imports
      from [auth], modelled from the specification;
    - the [login] endpoint, and of the form client [app.py] its session
      state, [login_user], [logout] and the payload of the prediction
      form.

    A string stands for a Python [str]. ASCII text stands for itself,
    character by character. Any other text is a string with a byte of 128
    or more (its UTF-8 encoding); what Python does with such text depends
    on the Unicode database, which is taken as a parameter
    ([PyStr.Unicode]). Two more behaviours of the validation library are
    parameters of the schema: how it reads a number out of a string, and
    what the bounds of a float field make of [nan]. *)

From Stdlib Require Import ZArith QArith Bool List Ascii String Lia Lqa.
From stdpp Require Import base option gmap strings.

Local Open Scope string_scope.
Local Open Scope Z_scope.

(** ** Python string helpers *)

Module PyStr.

(** Code point of a character. *)
Definition ord (c : ascii) : N := N_of_ascii c.

(** [s.isascii()] *)
Fixpoint isascii (s : string) : bool :=
  match s with
  | EmptyString => true
  | String c s' => (ord c <? 128)%N && isascii s'
  end.

(** [c.isspace()] on ASCII: tab, newline, vertical tab, form feed,
    carriage return, the four separators 0x1c..0x1f and the space. *)
Definition isspace (c : ascii) : bool :=
  let n := ord c in
  ((9 <=? n) && (n <=? 13) || (28 <=? n) && (n <=? 32))%N.

Definition isupper (c : ascii) : bool :=
  let n := ord c in ((65 <=? n) && (n <=? 90))%N.

Definition islower (c : ascii) : bool :=
  let n := ord c in ((97 <=? n) && (n <=? 122))%N.

(** A cased character is a letter. *)
Definition iscased (c : ascii) : bool := isupper c || islower c.

Definition lower_char (c : ascii) : ascii :=
  if isupper c then ascii_of_N (ord c + 32) else c.

Definition upper_char (c : ascii) : ascii :=
  if islower c then ascii_of_N (ord c - 32) else c.

(** [s.lstrip()] on ASCII text *)
Fixpoint lstrip (s : string) : string :=
  match s with
  | EmptyString => EmptyString
  | String c s' => if isspace c then lstrip s' else s
  end.

(** [s.rstrip()] on ASCII text *)
Fixpoint rstrip (s : string) : string :=
  match s with
  | EmptyString => EmptyString
  | String c s' =>
      match rstrip s' with
      | EmptyString => if isspace c then EmptyString else String c EmptyString
      | r => String c r
      end
  end.

(** [s.strip()] on ASCII text: whitespace removed at both ends. *)
Definition strip_ascii (s : string) : string := rstrip (lstrip s).

(** [s.lower()] on ASCII text *)
Fixpoint lower (s : string) : string :=
  match s with
  | EmptyString => EmptyString
  | String c s' => String (lower_char c) (lower s')
  end.

(** The loop of [s.title()]: a character that follows a cased character is
    lower-cased, any other is title-cased (upper-cased on ASCII);
    [previous_is_cased] is the loop's flag. *)
Fixpoint title_from (previous_is_cased : bool) (s : string) : string :=
  match s with
  | EmptyString => EmptyString
  | String c s' =>
      String (if previous_is_cased then lower_char c else upper_char c)
             (title_from (iscased c) s')
  end.

(** [s.title()] on ASCII text *)
Definition title_ascii (s : string) : string := title_from false s.

(** Python on text that is not ASCII: what [strip] and [title] return for
    it, and whether it can be encoded (it cannot when it holds a lone
    surrogate). *)
Record Unicode : Type := {
  strip_non_ascii : string -> string;
  title_non_ascii : string -> string;
  encodes_non_ascii : string -> bool
}.

(** [s.strip()] *)
Definition strip (unicode : Unicode) (s : string) : string :=
  if isascii s then strip_ascii s else strip_non_ascii unicode s.

(** [s.title()] *)
Definition title (unicode : Unicode) (s : string) : string :=
  if isascii s then title_ascii s else title_non_ascii unicode s.

(** Whether [s.encode("utf-8")] succeeds. *)
Definition encodes (unicode : Unicode) (s : string) : bool :=
  isascii s || encodes_non_ascii unicode s.

End PyStr.

(** ** Values *)

(** A value of a parsed JSON request body, as [json.loads] gives it. A
    finite float stands as the rational it denotes; [NaN], [Infinity] and
    [-Infinity], which [json.loads] accepts (an overflowing literal such as
    1e999 reads as an infinity), have constructors of their own. Arrays and
    objects nested inside the body are never valid for a field of the
    schema; all that is kept of one is whether it can be rendered as JSON
    again (it holds no [NaN], no infinity and no text that cannot be
    encoded). *)
Inductive json : Type :=
  | JNull
  | JBool (b : bool)
  | JInt (z : Z)
  | JFloat (q : Q)
  | JNaN
  | JInfinity (negative : bool)
  | JStr (s : string)
  | JNested (renders : bool).

(** A Python float. *)
Inductive pyfloat : Type :=
  | Finite (q : Q)
  | Infinity (negative : bool)
  | NaN.

(** A Python value held by a validated record or a model-dump row. *)
Inductive PyVal : Type :=
  | PInt (z : Z)
  | PFloat (f : pyfloat)
  | PStr (s : string).

(** An element of the array returned by [model.predict]: the class label
    as the artifact stores it; [LNotFinite] is a float label that is [nan]
    or an infinity. *)
Inductive Label : Type :=
  | LInt (z : Z)
  | LFloat (q : Q)
  | LBool (b : bool)
  | LStr (s : string)
  | LNotFinite.

(** [label == 1] in Python: numeric labels compare by value, [True] equals
    [1], a string never does. *)
Definition py_eq_1 (l : Label) : bool :=
  match l with
  | LInt z => z =? 1
  | LFloat q => Qeq_bool q 1
  | LBool b => b
  | LStr _ => false
  | LNotFinite => false
  end.

(** [float(z)] for a Python integer: the nearest double, ties to the even
    significand, and [None] where Python raises [OverflowError]. *)
Definition double_of_Z (z : Z) : option Q :=
  let a := Z.abs z in
  if a <? 2 ^ 53 then Some (inject_Z z)
  else
    let e := Z.log2 a - 52 in
    let m := Z.shiftr a e in
    let r := a mod 2 ^ e in
    let half := 2 ^ (e - 1) in
    let m' := if (half <? r) || ((r =? half) && Z.odd m) then m + 1 else m in
    let a' := m' * 2 ^ e in
    if a' <? 2 ^ 1024 then Some (inject_Z (Z.sgn z * a')) else None.

(** ** Exceptions *)

(** [ValueError] as the enum validators raise it, with the three parts of
    its message: "<subject> must be one of <allowed>. You sent: <sent>". *)
Record ValueError : Type := {
  ve_subject : string;
  ve_allowed : gset string;
  ve_sent : string
}.

(** Any other Python exception (an instance of [Exception]): its class and
    [str(err)]. *)
Record PyException : Type := {
  exc_class : string;
  exc_str : string
}.

(** [fastapi.HTTPException(status_code, detail)] *)
Record HTTPException : Type := {
  status_code : Z;
  detail : string
}.

(** The error kinds pydantic and FastAPI report for a request body. *)
Inductive ErrorType : Type :=
  | missing
  | json_invalid
  | model_attributes_type
  | int_type
  | int_parsing
  | int_parsing_size
  | int_from_float
  | finite_number
  | float_type
  | float_parsing
  | string_type
  | greater_than_equal (ge : Z)
  | less_than_equal (le : Z)
  | value_error (err : ValueError).

(** The input an error entry quotes: the offending value, or, for a
    missing field, the whole object the field is missing from. *)
Inductive ErrorInput : Type :=
  | InValue (v : json)
  | InBody (body : gmap string json).

(** One entry of a validation error: the key it is reported under (the
    last component of its location), its kind and the input it quotes. *)
Record ValidationError : Type := {
  loc : string;
  type : ErrorType;
  input : ErrorInput
}.

(** ** The input schema *)

(** [ConfigDict(populate_by_name=...)] *)
Record ConfigDict : Type := { populate_by_name : bool }.

(** [class CustomerData(BaseModel)]: a validated instance. A float field
    holds a Python float: finite, or [nan] where the bounds let it
    through. *)
Record CustomerData : Type := {
  age : Z;
  gender : string;
  tenure : pyfloat;
  usage_frequency : pyfloat;
  support_calls : pyfloat;
  payment_delay : pyfloat;
  subscription_type : string;
  contract_length : string;
  total_spend : pyfloat;
  last_interaction : pyfloat
}.

(** [model_config = ConfigDict(populate_by_name=True)] *)
Definition model_config : ConfigDict := {| populate_by_name := true |}.

Section Validators.

Variable unicode : PyStr.Unicode.

(** [CustomerData.validate_gender] *)
Definition validate_gender (value : string) : ValueError + string :=
  let cleaned_value := PyStr.title unicode (PyStr.strip unicode value) in
  let allowed : gset string := {[ "Male"; "Female" ]} in
  if decide (cleaned_value ∉ allowed)
  then inl {| ve_subject := "Gender"; ve_allowed := allowed; ve_sent := value |}
  else inr cleaned_value.

(** [CustomerData.validate_subscription] *)
Definition validate_subscription (value : string) : ValueError + string :=
  let cleaned_value := PyStr.title unicode (PyStr.strip unicode value) in
  let allowed : gset string := {[ "Standard"; "Basic"; "Premium" ]} in
  if decide (cleaned_value ∉ allowed)
  then inl {| ve_subject := "Subscription"; ve_allowed := allowed; ve_sent := value |}
  else inr cleaned_value.

(** [CustomerData.validate_contract] *)
Definition validate_contract (value : string) : ValueError + string :=
  let cleaned_value := PyStr.title unicode (PyStr.strip unicode value) in
  let allowed : gset string := {[ "Annual"; "Monthly"; "Quarterly" ]} in
  if decide (cleaned_value ∉ allowed)
  then inl {| ve_subject := "Contract"; ve_allowed := allowed; ve_sent := value |}
  else inr cleaned_value.

End Validators.

(** Validation of a whole model accumulates the errors of all its fields. *)
Definition Validated (A : Type) : Type := list ValidationError + A.

Definition v_ap {A B : Type} (vf : Validated (A -> B)) (va : Validated A)
  : Validated B :=
  match vf, va with
  | inr f, inr a => inr (f a)
  | inr _, inl ea => inl ea
  | inl ef, inr _ => inl ef
  | inl ef, inl ea => inl (ef ++ ea)%list
  end.

Notation "vf <&> va" := (v_ap vf va) (at level 61, left associativity).

Section Schema.

Variable unicode : PyStr.Unicode.

(** pydantic's lax parsing of a string given for a numeric field: the
    number it reads, or the error it reports; the schema below holds for
    any such parser. *)
Variable str_as_int : string -> ErrorType + Z.
Variable str_as_float : string -> ErrorType + pyfloat.

(** What the bounds [ge], [le] of a float field make of [nan]: the error
    they report, or [None] when [nan] passes them (a bound written as
    "reject what compares greater than [le]" lets [nan] through, one
    written as "accept what compares at most [le]" does not); the schema
    below holds for either. *)
Variable float_nan : Z -> Z -> option ErrorType.

(** Type [int] in lax mode: integers and booleans as they are; a float
    when it is finite, without fractional part and strictly between -2^63
    and 2^63; a string that parses. *)
Definition validate_int (v : json) : ErrorType + Z :=
  match v with
  | JInt z => inr z
  | JBool b => inr (if b then 1 else 0)
  | JNaN | JInfinity _ => inl finite_number
  | JFloat q =>
      let r := Qred q in
      if negb (Qden r =? 1)%positive then inl int_from_float
      else if (- 2 ^ 63 <? Qnum r) && (Qnum r <? 2 ^ 63) then inr (Qnum r)
      else inl int_parsing_size
  | JStr s => str_as_int s
  | JNull | JNested _ => inl int_type
  end.

(** Type [float] in lax mode: any float; an integer or a boolean as the
    double it converts to, when it does; a string that parses. *)
Definition validate_float (v : json) : ErrorType + pyfloat :=
  match v with
  | JFloat q => inr (Finite q)
  | JNaN => inr NaN
  | JInfinity negative => inr (Infinity negative)
  | JInt z =>
      match double_of_Z z with
      | Some q => inr (Finite q)
      | None => inl float_type
      end
  | JBool b => inr (Finite (inject_Z (if b then 1 else 0)))
  | JStr s => str_as_float s
  | JNull | JNested _ => inl float_type
  end.

(** Type [str]: only a string. *)
Definition validate_str (v : json) : ErrorType + string :=
  match v with
  | JStr s => inr s
  | _ => inl string_type
  end.

(** [int] with [ge=..., le=...] *)
Definition int_ge_le (ge le : Z) (v : json) : ErrorType + Z :=
  match validate_int v with
  | inl e => inl e
  | inr z =>
      if negb (z <=? le) then inl (less_than_equal le)
      else if negb (ge <=? z) then inl (greater_than_equal ge)
      else inr z
  end.

(** [float] with [ge=..., le=...]: [le] is tested before [ge]; an
    infinity fails the bound on its side, and what becomes of [nan] is
    [float_nan]. *)
Definition float_ge_le (ge le : Z) (v : json) : ErrorType + pyfloat :=
  match validate_float v with
  | inl e => inl e
  | inr NaN =>
      match float_nan ge le with
      | Some e => inl e
      | None => inr NaN
      end
  | inr (Infinity false) => inl (less_than_equal le)
  | inr (Infinity true) => inl (greater_than_equal ge)
  | inr (Finite q) =>
      if negb (Qle_bool q (inject_Z le)) then inl (less_than_equal le)
      else if negb (Qle_bool (inject_Z ge) q) then inl (greater_than_equal ge)
      else inr (Finite q)
  end.

(** [str] followed by an after-validator. *)
Definition str_with (validator : string -> ValueError + string) (v : json)
  : ErrorType + string :=
  match validate_str v with
  | inl e => inl e
  | inr s =>
      match validator s with
      | inl err => inl (value_error err)
      | inr cleaned => inr cleaned
      end
  end.

(** The value a body supplies for a field, with the key it stands under:
    the alias, and with [populate_by_name] also the field's own name. *)
Definition lookup_key (config : ConfigDict) (body : gmap string json)
    (alias name : string) : option (string * json) :=
  match body !! alias with
  | Some v => Some (alias, v)
  | None =>
      if populate_by_name config then
        match body !! name with
        | Some v => Some (name, v)
        | None => None
        end
      else None
  end.

(** A required field: [name: T = Field(..., alias=alias, ...)]. A missing
    field is reported under the alias, with the whole body as input; a
    value that fails, under the key it was found under. *)
Definition Field {A : Type} (body : gmap string json) (name alias : string)
    (schema : json -> ErrorType + A) : Validated A :=
  match lookup_key model_config body alias name with
  | None => inl [ {| loc := alias; type := missing; input := InBody body |} ]
  | Some (key, v) =>
      match schema v with
      | inl e => inl [ {| loc := key; type := e; input := InValue v |} ]
      | inr a => inr a
      end
  end.

(** Validation of a JSON object against [CustomerData]. *)
Definition CustomerData_validate (body : gmap string json)
  : Validated CustomerData :=
  inr Build_CustomerData
    <&> Field body "age" "Age" (int_ge_le 3 110)
    <&> Field body "gender" "Gender" (str_with (validate_gender unicode))
    <&> Field body "tenure" "Tenure" (float_ge_le 1 60)
    <&> Field body "usage_frequency" "Usage Frequency" (float_ge_le 1 30)
    <&> Field body "support_calls" "Support Calls" (float_ge_le 0 10)
    <&> Field body "payment_delay" "Payment Delay" (float_ge_le 0 30)
    <&> Field body "subscription_type" "Subscription Type"
          (str_with (validate_subscription unicode))
    <&> Field body "contract_length" "Contract Length"
          (str_with (validate_contract unicode))
    <&> Field body "total_spend" "Total Spend" (float_ge_le 100 1000)
    <&> Field body "last_interaction" "Last Interaction" (float_ge_le 1 30).

End Schema.

(** [data.model_dump(by_alias=True)]: the fields under their aliases, in
    declaration order. *)
Definition model_dump_by_alias (data : CustomerData) : list (string * PyVal) :=
  [ ("Age", PInt (age data));
    ("Gender", PStr (gender data));
    ("Tenure", PFloat (tenure data));
    ("Usage Frequency", PFloat (usage_frequency data));
    ("Support Calls", PFloat (support_calls data));
    ("Payment Delay", PFloat (payment_delay data));
    ("Subscription Type", PStr (subscription_type data));
    ("Contract Length", PStr (contract_length data));
    ("Total Spend", PFloat (total_spend data));
    ("Last Interaction", PFloat (last_interaction data)) ].

(** ** Effects of a request *)

(** What a request does besides computing its response, in the order it
    does it. *)
Inductive Event : Type :=
  | EvVerifyToken
  | EvValidateBody
  | EvPrint (username : string)
  | EvDataFrame
  | EvModelPredict.

(** A computation that logs its events and either raises [E] or returns. *)
Definition Run (E A : Type) : Type := list Event * (E + A).

Definition ret {E A : Type} (a : A) : Run E A := ([], inr a).

Definition raise {E A : Type} (e : E) : Run E A := ([], inl e).

Definition bind {E A B : Type} (m : Run E A) (k : A -> Run E B) : Run E B :=
  match m with
  | (log, inl e) => (log, inl e)
  | (log, inr a) => let (log', r) := k a in ((log ++ log')%list, r)
  end.

(** A call into a library: the call is logged, its outcome is the
    library's. *)
Definition call {E A : Type} (ev : Event) (outcome : E + A) : Run E A :=
  ([ev], outcome).

(** [try: body / except Exception as err: handler(err)] *)
Definition try_except {E E' A : Type} (body : Run E A)
    (handler : E -> Run E' A) : Run E' A :=
  match body with
  | (log, inr a) => (log, inr a)
  | (log, inl err) => let (log', r) := handler err in ((log ++ log')%list, r)
  end.

Notation "'let!' x ':=' m 'in' k" := (bind m (fun x => k))
  (at level 10, x name, m at level 100, k at level 200).

Notation "m ';;' k" := (bind m (fun _ => k))
  (at level 100, k at level 200, right associativity).

(** The events of a run and how it ended. *)
Definition events {E A : Type} (m : Run E A) : list Event := fst m.
Definition outcome {E A : Type} (m : Run E A) : E + A := snd m.

(** Number of calls of [model.predict] in a log. *)
Definition model_calls (log : list Event) : nat :=
  List.length (List.filter
    (fun ev => match ev with EvModelPredict => true | _ => false end) log).

(** ** The prediction endpoint *)

(** [class Result(BaseModel)] *)
Record Result : Type := {
  prediction : string;
  risk_level : string
}.

Section Predict.

(** The loaded artifact and pandas are opaque: [DataFrame] stands for
    [pd.DataFrame], [model_predict] for [model.predict]; either may raise. *)
Variable Frame : Type.
Variable DataFrame : list (list (string * PyVal)) -> PyException + Frame.
Variable model_predict : Frame -> PyException + list Label.

(** [array[0]] *)
Definition getitem_0 (array : list Label) : PyException + Label :=
  match array with
  | x :: _ => inr x
  | [] => inl {| exc_class := "IndexError";
                 exc_str := "index 0 is out of bounds for axis 0 with size 0" |}
  end.

(** [def predict(data: CustomerData, username: str = Depends(verify_token))] *)
Definition predict (data : CustomerData) (username : string)
  : Run HTTPException Result :=
  call (EvPrint username) (inr tt) ;;
  try_except
    (let! input_df :=
       call EvDataFrame (DataFrame [model_dump_by_alias data]) in
     let! predictions := call EvModelPredict (model_predict input_df) in
     let! prediction := ([], getitem_0 predictions) in
     ret {| prediction := if py_eq_1 prediction then "Churn" else "No Churn";
            risk_level := if py_eq_1 prediction then "Critical" else "Safe" |})
    (fun err => raise {| status_code := 500; detail := exc_str err |}).

End Predict.

(** ** The registration endpoint *)

(** [class UserAuth(BaseModel)] *)
Record UserAuth : Type := {
  username : string;
  password : string
}.

(** [class TokenResponse(BaseModel)], as [register] fills it; [T] is the
    type of tokens. *)
Record TokenResponse (T : Type) : Type := {
  access_token : T;
  token_type : string;
  expires_in : Z
}.

Arguments access_token {T} _.
Arguments token_type {T} _.
Arguments expires_in {T} _.

(** [timedelta(minutes=m)], in seconds. *)
Definition timedelta_minutes (m : Z) : Z := m * 60.

Section Register.

(** What [main.py] imports from [auth]: the user store behind
    [register_new_user], which either raises or records the user, the token
    constructor, which reads the clock, and the token lifetime. *)
Variable Store : Type.
Variable T : Type.
Variable register_new_user : Store -> UserAuth -> Store * (HTTPException + unit).
Variable create_access_token : Z -> string -> Z -> T.
Variable ACCESS_TOKEN_EXPIRE_MINUTES : Z.

(** [def register(user: UserAuth)], over the user store it updates and the
    clock it reads; [data_sub] of [create_access_token] is the ["sub"]
    entry of its [data]. *)
Definition register (users : Store) (now : Z) (user : UserAuth)
  : Store * (HTTPException + TokenResponse T) :=
  match register_new_user users user with
  | (users', inl err) => (users', inl err)
  | (users', inr _) =>
      let access_token_expires := timedelta_minutes ACCESS_TOKEN_EXPIRE_MINUTES in
      let access_token :=
        create_access_token now (username user) access_token_expires in
      (users', inr {| access_token := access_token;
                      token_type := "Bearer";
                      expires_in := ACCESS_TOKEN_EXPIRE_MINUTES * 60 |})
  end.

End Register.

(** ** Authentication (module [auth]) *)

(** Modelled from the spec: the payload of a bearer token (section 3,
    Token); [auth.py], which defines it, is not part of the sources
    verified here. It holds the subject it names, if any, and its expiry
    in seconds. *)
Record Claims : Type := {
  sub : option string;
  exp : Z
}.

(** Modelled from the spec: the signature of a token (section 4.2), from
    the same missing [auth.py]. It is the ideal signature of a symbolic
    model: it validates under the key and for the payload it was made
    with, and under no other. *)
Inductive Signature : Type :=
  | Signed (key : string) (payload : Claims).

(** Modelled from the spec: a bearer token as presented (section 3), from
    the missing [auth.py]: a signed payload, or text that does not
    decode. *)
Inductive Token : Type :=
  | Jwt (payload : Claims) (signature : Signature)
  | Corrupt (text : string).

(** Modelled from the spec: the three ways verification fails (section
    4.2), from the missing [auth.py]. *)
Inductive TokenError : Type :=
  | Expired
  | Malformed
  | MissingSubject.

(** Modelled from the spec: the error of a registration under a name that
    is taken (section 4.1), from the missing [auth.py]. *)
Inductive AlreadyExists : Type := already_exists.

#[export] Instance Claims_eq_dec : EqDecision Claims.
Proof. solve_decision. Defined.

#[export] Instance Signature_eq_dec : EqDecision Signature.
Proof. solve_decision. Defined.

Section Auth.

(** The configuration of [auth]: the signing key and the password hash,
    fixed at start-up. *)
Variable SECRET_KEY : string.
Variable get_password_hash : string -> string.

(** Modelled from the spec: [create_access_token(data, expires_delta)] of
    the missing [auth.py] (section 4.2, issue): the payload is [data] with
    the expiry "now + expires_delta", signed with the process key. *)
Definition create_access_token (now : Z) (data_sub : string)
    (expires_delta : Z) : Token :=
  let payload := {| sub := Some data_sub; exp := now + expires_delta |} in
  Jwt payload (Signed SECRET_KEY payload).

(** Modelled from the spec: the token service's [verify] of the missing
    [auth.py] (section 4.2): [Malformed] when the text does not decode or
    the signature does not validate, [Expired] when the current time
    exceeds the expiry, [MissingSubject] when no subject is named. *)
Definition verify (key : string) (now : Z) (token : Token)
  : TokenError + string :=
  match token with
  | Corrupt _ => inl Malformed
  | Jwt payload signature =>
      if decide (signature = Signed key payload) then
        if exp payload <? now then inl Expired
        else match sub payload with
             | Some subject => inr subject
             | None => inl MissingSubject
             end
      else inl Malformed
  end.

(** Modelled from the spec: the dependency [verify_token] of the missing
    [auth.py] (sections 4.5 and 7): a request without a token, or with one
    that does not verify, is refused with status 401. *)
Definition verify_token (now : Z) (authorization : option Token)
  : HTTPException + string :=
  match authorization with
  | None => inl {| status_code := 401; detail := "Not authenticated" |}
  | Some token =>
      match verify SECRET_KEY now token with
      | inr subject => inr subject
      | inl _ =>
          inl {| status_code := 401; detail := "Could not validate credentials" |}
      end
  end.

(** Modelled from the spec: the credential store's [register] of the
    missing [auth.py] (section 4.1): a mapping from user name to password
    hash, to which a name is added only when it is not yet present, by
    exact comparison of the names. *)
Definition store_register (users : gmap string string)
    (name pass : string) : AlreadyExists + gmap string string :=
  match users !! name with
  | Some _ => inl already_exists
  | None => inr (<[name := get_password_hash pass]> users)
  end.

(** Modelled from the spec: [register_new_user(user)] of the missing
    [auth.py] (section 7): [AlreadyExists] reaches the caller as a 4xx
    error, here 400; the outcome comes with the store as it leaves it. *)
Definition register_new_user (users : gmap string string) (user : UserAuth)
  : gmap string string * (HTTPException + unit) :=
  match store_register users (username user) (password user) with
  | inl already_exists =>
      (users, inl {| status_code := 400; detail := "Username already registered" |})
  | inr users' => (users', inr tt)
  end.

End Auth.

(** ** The request pipeline *)

(** The body of a request sent as JSON: bytes that do not decode, a JSON
    object, or a JSON document that is not an object (a body that is
    absent reads as [null]). *)
Inductive RequestBody : Type :=
  | InvalidJSON
  | JSONObject (fields : gmap string json)
  | JSONValue (v : json).

(** A [POST /predict] request: what the [Authorization] header carries, if
    anything, and the body. *)
Record Request (Credentials : Type) : Type := {
  authorization : option Credentials;
  body : RequestBody
}.

Arguments authorization {Credentials} _.
Arguments body {Credentials} _.

(** How a request fails: the body does not decode or does not validate
    ([RequestValidationError]), or a dependency or the handler raised an
    [HTTPException]. *)
Inductive Failure : Type :=
  | RequestValidationError (errors : list ValidationError)
  | HTTPError (err : HTTPException).

Inductive Content : Type :=
  | ResultJSON (result : Result)
  | DetailJSON (detail : string)
  | ErrorsJSON (errors : list ValidationError)
  | PlainText (text : string).

Record Response : Type := {
  status : Z;
  content : Content
}.

Definition map_failure {E E' A : Type} (f : E -> E') (r : E + A) : E' + A :=
  match r with
  | inl e => inl (f e)
  | inr a => inr a
  end.

(** The error FastAPI reports for a body that does not decode; its input
    is an empty object. *)
Definition json_decode_error : ValidationError :=
  {| loc := "body"; type := json_invalid; input := InBody ∅ |}.

Section Rendering.

Variable unicode : PyStr.Unicode.

(** Whether a value can be rendered as JSON by the response class
    ([json.dumps(..., allow_nan=False)], encoded as UTF-8). *)
Definition renders (v : json) : bool :=
  match v with
  | JNaN | JInfinity _ => false
  | JStr s => PyStr.encodes unicode s
  | JNested r => r
  | JNull | JBool _ | JInt _ | JFloat _ => true
  end.

Definition input_renders (i : ErrorInput) : bool :=
  match i with
  | InValue v => renders v
  | InBody body =>
      bool_decide
        (map_Forall (fun key v => PyStr.encodes unicode key && renders v = true)
           body)
  end.

(** The response FastAPI sends for the outcome of a request: 200 with the
    result; for an [HTTPException] its own status and detail; for a body
    that does not validate 422 with the errors, inputs included, unless
    they cannot be rendered, in which case the exception handler itself
    fails and the server answers 500. *)
Definition respond (r : Failure + Result) : Response :=
  match r with
  | inr result => {| status := 200; content := ResultJSON result |}
  | inl (RequestValidationError errors) =>
      if forallb (fun e => input_renders (input e)) errors
      then {| status := 422; content := ErrorsJSON errors |}
      else {| status := 500; content := PlainText "Internal Server Error" |}
  | inl (HTTPError err) =>
      {| status := status_code err; content := DetailJSON (detail err) |}
  end.

End Rendering.

Section Pipeline.

Variable Credentials : Type.
(** [Depends(verify_token)] *)
Variable depends_verify_token : option Credentials -> HTTPException + string.
Variable unicode : PyStr.Unicode.
Variable str_as_int : string -> ErrorType + Z.
Variable str_as_float : string -> ErrorType + pyfloat.
Variable float_nan : Z -> Z -> option ErrorType.
Variable Frame : Type.
Variable DataFrame : list (list (string * PyVal)) -> PyException + Frame.
Variable model_predict : Frame -> PyException + list Label.

(** Validation of a decoded body as the [data: CustomerData] parameter:
    only an object is read field by field. *)
Definition validate_body (body : RequestBody) : Validated CustomerData :=
  match body with
  | InvalidJSON => inl [json_decode_error]
  | JSONValue JNull =>
      inl [ {| loc := "body"; type := missing; input := InValue JNull |} ]
  | JSONValue v =>
      inl [ {| loc := "body"; type := model_attributes_type;
               input := InValue v |} ]
  | JSONObject fields =>
      CustomerData_validate unicode str_as_int str_as_float float_nan fields
  end.

(** [@app.post('/predict', response_model=Result)]: the body is decoded
    first, and a body that does not decode ends the request; then the
    dependency is solved, then the body is validated against
    [CustomerData], then the handler runs. *)
Definition post_predict (request : Request Credentials)
  : Run Failure Result :=
  match body request with
  | InvalidJSON => raise (RequestValidationError [json_decode_error])
  | JSONObject _ | JSONValue _ =>
      let! username :=
        call EvVerifyToken
          (map_failure HTTPError
             (depends_verify_token (authorization request))) in
      let! data :=
        call EvValidateBody
          (map_failure RequestValidationError
             (validate_body (body request))) in
      let (log, r) := predict Frame DataFrame model_predict data username in
      (log, map_failure HTTPError r)
  end.

(** The HTTP response to a [POST /predict] request. *)
Definition predict_response (request : Request Credentials) : Response :=
  respond unicode (outcome (post_predict request)).

End Pipeline.

(** ** Reference data *)

(** The contract of an enum validator: the input is trimmed and
    title-cased, the outcome is decided by membership of the cleaned value
    in [allowed], and a failure lists [allowed] and the input. *)
Definition trims_titles_then_checks (unicode : PyStr.Unicode)
    (validator : string -> ValueError + string) (allowed : list string)
  : Prop :=
  forall value : string,
    let cleaned := PyStr.title unicode (PyStr.strip unicode value) in
    (cleaned ∈ allowed -> validator value = inr cleaned) /\
    (cleaned ∉ allowed ->
       exists err, validator value = inl err /\
         (forall permitted,
            permitted ∈ ve_allowed err <-> permitted ∈ allowed) /\
         ve_sent err = value).

(** The code points of ASCII whitespace: tab, line feed, vertical tab, form
    feed, carriage return, the file, group, record and unit separators, and
    the space. *)
Definition ascii_whitespace : list N :=
  [9; 10; 11; 12; 13; 28; 29; 30; 31; 32]%N.

(** Text made of whitespace only. *)
Inductive blank : string -> Prop :=
  | blank_empty : blank ""
  | blank_space (c : ascii) (s : string) :
      PyStr.ord c ∈ ascii_whitespace -> blank s -> blank (String c s).

(** Two characters that are the same, or the same letter of the English
    alphabet in different cases (a capital is 32 below its small letter). *)
Definition same_letter (a b : ascii) : Prop :=
  a = b \/
  ((65 <= PyStr.ord a <= 90)%N /\ PyStr.ord b = (PyStr.ord a + 32)%N) \/
  ((65 <= PyStr.ord b <= 90)%N /\ PyStr.ord a = (PyStr.ord b + 32)%N).

(** [spells s w]: [s] is the word [w] in any mix of upper and lower case. *)
Inductive spells : string -> string -> Prop :=
  | spells_empty : spells "" ""
  | spells_letter (a b : ascii) (s w : string) :
      same_letter a b -> spells s w -> spells (String a s) (String b w).

(** [value] is the word [w], in any mix of cases, with whitespace before
    and after it. *)
Definition padded_spelling (value w : string) : Prop :=
  exists before core after : string,
    value = before ++ core ++ after /\
    blank before /\ blank after /\ spells core w.

(** An enum field on ASCII input: the input is accepted exactly when it is
    a padded spelling of an allowed value, and that value is the result. *)
Definition accepts_padded_spellings
    (validator : string -> ValueError + string) (allowed : list string)
  : Prop :=
  forall value w : string,
    PyStr.isascii value = true ->
    (validator value = inr w <-> w ∈ allowed /\ padded_spelling value w).

(** Text without whitespace in it. *)
Fixpoint unspaced (s : string) : bool :=
  match s with
  | EmptyString => true
  | String c s' => negb (PyStr.isspace c) && unspaced s'
  end.

(** "The model output equals 1", label by label: the integer 1, the float
    1.0 and [True] do; no other number, no string and no non-finite float
    does. *)
Definition equals_one (l : Label) : Prop :=
  match l with
  | LInt z => z = 1
  | LFloat q => (q == 1)%Q
  | LBool b => b = true
  | LStr _ => False
  | LNotFinite => False
  end.

(** The ten fields of [CustomerData]: internal name and alias. *)
Definition fields : list (string * string) :=
  [ ("age", "Age"); ("gender", "Gender"); ("tenure", "Tenure");
    ("usage_frequency", "Usage Frequency"); ("support_calls", "Support Calls");
    ("payment_delay", "Payment Delay");
    ("subscription_type", "Subscription Type");
    ("contract_length", "Contract Length"); ("total_spend", "Total Spend");
    ("last_interaction", "Last Interaction") ].

(** The alias of the field a key belongs to: of an internal name its
    alias, any other key itself. *)
Definition alias_of (key : string) : string :=
  match List.find (fun field => String.eqb (fst field) key) fields with
  | Some field => snd field
  | None => key
  end.

(** The seven numeric fields. *)
Inductive NumericField : Type :=
  | f_age | f_tenure | f_usage_frequency | f_support_calls
  | f_payment_delay | f_total_spend | f_last_interaction.

Definition numeric_alias (f : NumericField) : string :=
  match f with
  | f_age => "Age"
  | f_tenure => "Tenure"
  | f_usage_frequency => "Usage Frequency"
  | f_support_calls => "Support Calls"
  | f_payment_delay => "Payment Delay"
  | f_total_spend => "Total Spend"
  | f_last_interaction => "Last Interaction"
  end.

(** The documented interval of each numeric field. *)
Definition documented_interval (f : NumericField) : Z * Z :=
  match f with
  | f_age => (3, 110)
  | f_tenure => (1, 60)
  | f_usage_frequency => (1, 30)
  | f_support_calls => (0, 10)
  | f_payment_delay => (0, 30)
  | f_total_spend => (100, 1000)
  | f_last_interaction => (1, 30)
  end.

(** The value a validated record holds for a numeric field. *)
Definition numeric_value (f : NumericField) (data : CustomerData) : pyfloat :=
  match f with
  | f_age => Finite (inject_Z (age data))
  | f_tenure => tenure data
  | f_usage_frequency => usage_frequency data
  | f_support_calls => support_calls data
  | f_payment_delay => payment_delay data
  | f_total_spend => total_spend data
  | f_last_interaction => last_interaction data
  end.

(** A JSON number that has the type of the field, as the number the field
    holds for it: an integer for [age]; for a float field a finite float,
    or an integer that converts to a double, as that double. *)
Definition number_for (f : NumericField) (v : json) : option Q :=
  match v, f with
  | JInt z, f_age => Some (inject_Z z)
  | JInt z, _ => double_of_Z z
  | JFloat _, f_age => None
  | JFloat q, _ => Some q
  | _, _ => None
  end.

(** A value that JSON cannot express: [nan], an infinity, text that cannot
    be encoded, or an array or object that holds one of these. *)
Inductive unrenderable (unicode : PyStr.Unicode) : json -> Prop :=
  | unrenderable_nan : unrenderable unicode JNaN
  | unrenderable_infinity (negative : bool) :
      unrenderable unicode (JInfinity negative)
  | unrenderable_text (s : string) :
      PyStr.encodes unicode s = false -> unrenderable unicode (JStr s)
  | unrenderable_nested : unrenderable unicode (JNested false).

(** An error entry whose quoted input JSON cannot express: the offending
    value, or for a missing field some key or value of the body. *)
Definition quotes_unrenderable (unicode : PyStr.Unicode) (e : ValidationError)
  : Prop :=
  match input e with
  | InValue v => unrenderable unicode v
  | InBody body =>
      exists key v, body !! key = Some v /\
        (PyStr.encodes unicode key = false \/ unrenderable unicode v)
  end.

(** The record of the specification's end-to-end example, as the form
    client posts it (aliases as keys). *)
Definition example_body : gmap string json :=
  list_to_map
    [ ("Age", JInt 20); ("Gender", JStr "Male"); ("Tenure", JFloat (61 # 2));
      ("Usage Frequency", JFloat (31 # 2)); ("Support Calls", JInt 5);
      ("Payment Delay", JInt 15); ("Subscription Type", JStr "Premium");
      ("Contract Length", JStr "Monthly"); ("Total Spend", JInt 550);
      ("Last Interaction", JFloat (31 # 2)) ].

(** The same record keyed by the internal identifiers. *)
Definition example_body_by_name : gmap string json :=
  list_to_map
    [ ("age", JInt 20); ("gender", JStr "Male"); ("tenure", JFloat (61 # 2));
      ("usage_frequency", JFloat (31 # 2)); ("support_calls", JInt 5);
      ("payment_delay", JInt 15); ("subscription_type", JStr "Premium");
      ("contract_length", JStr "Monthly"); ("total_spend", JInt 550);
      ("last_interaction", JFloat (31 # 2)) ].

Definition example_data : CustomerData :=
  {| age := 20; gender := "Male"; tenure := Finite (61 # 2);
     usage_frequency := Finite (31 # 2); support_calls := Finite (inject_Z 5);
     payment_delay := Finite (inject_Z 15); subscription_type := "Premium";
     contract_length := "Monthly"; total_spend := Finite (inject_Z 550);
     last_interaction := Finite (31 # 2) |}.

(** Stand-ins for the opaque parts, used to run the definitions: a Unicode
    database that leaves text outside ASCII as it is, string parsers that
    accept nothing, bounds that let [nan] through, a frame that is its
    list of rows, a model that answers one fixed label, and a model that
    raises. *)
Definition plain_unicode : PyStr.Unicode :=
  {| PyStr.strip_non_ascii := fun s => s;
     PyStr.title_non_ascii := fun s => s;
     PyStr.encodes_non_ascii := fun _ => true |}.

Definition no_str_as_int : string -> ErrorType + Z := fun _ => inl int_parsing.
Definition no_str_as_float : string -> ErrorType + pyfloat :=
  fun _ => inl float_parsing.
Definition nan_passes : Z -> Z -> option ErrorType := fun _ _ => None.

Definition rows_frame (rows : list (list (string * PyVal)))
  : PyException + list (list (string * PyVal)) := inr rows.

Definition constant_model (label : Label)
    (frame : list (list (string * PyVal))) : PyException + list Label :=
  inr [label].

Definition failing_model (message : string)
    (frame : list (list (string * PyVal))) : PyException + list Label :=
  inl {| exc_class := "ValueError"; exc_str := message |}.

(** A dependency that lets every request through as user [alice]. *)
Definition allow_alice (authorization : option unit) : HTTPException + string :=
  inr "alice".

(** A body with an age out of range, a gender outside the enum and no
    tenure. *)
Definition invalid_body : gmap string json :=
  <["Age" := JInt 2]> (<["Gender" := JStr "Other"]> (delete "Tenure" example_body)).

(** A stand-in for the password hash. *)
Definition tagged_hash (pass : string) : string := "hash:" ++ pass.

(** ** The login endpoint *)

Section Login.

(** What [main.py] imports from [auth] for [login]: [authenticate_user],
    which returns the user or a false value ([None] here), the token
    constructor and the token lifetime. *)
Variable T : Type.
Variable U : Type.
Variable authenticate_user : UserAuth -> option U.
Variable create_access_token : Z -> string -> Z -> T.
Variable ACCESS_TOKEN_EXPIRE_MINUTES : Z.

(** [def login(user: UserAuth)], over the clock it reads. *)
Definition login (now : Z) (user : UserAuth)
  : HTTPException + TokenResponse T :=
  match authenticate_user user with
  | None =>
      inl {| status_code := 401; detail := "Incorrect username or password" |}
  | Some authenticated_user =>
      let access_token_expires := timedelta_minutes ACCESS_TOKEN_EXPIRE_MINUTES in
      let access_token :=
        create_access_token now (username user) access_token_expires in
      inr {| access_token := access_token;
             token_type := "Bearer";
             expires_in := ACCESS_TOKEN_EXPIRE_MINUTES * 60 |}
  end.

End Login.

(** ** Derived views of the schema *)

(** The errors a validation result carries. *)
Definition errors_of {A : Type} (v : Validated A) : list ValidationError :=
  match v with
  | inl errors => errors
  | inr _ => []
  end.

(** A validation result without the places and the inputs of its errors:
    the record, or the kinds of the errors in order. *)
Definition kinds_of {A : Type} (v : Validated A) : list ErrorType + A :=
  match v with
  | inl errors => inl (List.map type errors)
  | inr a => inr a
  end.

Section FieldErrors.

Variable unicode : PyStr.Unicode.
Variable str_as_int : string -> ErrorType + Z.
Variable str_as_float : string -> ErrorType + pyfloat.
Variable float_nan : Z -> Z -> option ErrorType.

(** The errors of the ten fields of a body, field by field in declaration
    order. *)
Definition field_errors (body : gmap string json) : list ValidationError :=
  (errors_of (Field body "age" "Age" (int_ge_le str_as_int 3 110))
   ++ errors_of (Field body "gender" "Gender"
                   (str_with (validate_gender unicode)))
   ++ errors_of (Field body "tenure" "Tenure"
                   (float_ge_le str_as_float float_nan 1 60))
   ++ errors_of (Field body "usage_frequency" "Usage Frequency"
                   (float_ge_le str_as_float float_nan 1 30))
   ++ errors_of (Field body "support_calls" "Support Calls"
                   (float_ge_le str_as_float float_nan 0 10))
   ++ errors_of (Field body "payment_delay" "Payment Delay"
                   (float_ge_le str_as_float float_nan 0 30))
   ++ errors_of (Field body "subscription_type" "Subscription Type"
                   (str_with (validate_subscription unicode)))
   ++ errors_of (Field body "contract_length" "Contract Length"
                   (str_with (validate_contract unicode)))
   ++ errors_of (Field body "total_spend" "Total Spend"
                   (float_ge_le str_as_float float_nan 100 1000))
   ++ errors_of (Field body "last_interaction" "Last Interaction"
                   (float_ge_le str_as_float float_nan 1 30)))%list.

End FieldErrors.

(** The schema of each numeric field as [CustomerData] declares it, with
    its result as a float. *)
Definition numeric_schema (str_as_int : string -> ErrorType + Z)
    (str_as_float : string -> ErrorType + pyfloat)
    (float_nan : Z -> Z -> option ErrorType)
    (f : NumericField) (v : json) : ErrorType + pyfloat :=
  match f with
  | f_age =>
      match int_ge_le str_as_int 3 110 v with
      | inl e => inl e
      | inr z => inr (Finite (inject_Z z))
      end
  | f_tenure => float_ge_le str_as_float float_nan 1 60 v
  | f_usage_frequency => float_ge_le str_as_float float_nan 1 30 v
  | f_support_calls => float_ge_le str_as_float float_nan 0 10 v
  | f_payment_delay => float_ge_le str_as_float float_nan 0 30 v
  | f_total_spend => float_ge_le str_as_float float_nan 100 1000 v
  | f_last_interaction => float_ge_le str_as_float float_nan 1 30 v
  end.

(** A float that the bounds [ge], [le] of a field let through. *)
Definition within_bounds (float_nan : Z -> Z -> option ErrorType)
    (ge le : Z) (f : pyfloat) : Prop :=
  match f with
  | Finite q => (inject_Z ge <= q <= inject_Z le)%Q
  | Infinity _ => False
  | NaN => float_nan ge le = None
  end.

(** The constraints the schema declares, as a predicate on records. *)
Definition satisfies_constraints (float_nan : Z -> Z -> option ErrorType)
    (data : CustomerData) : Prop :=
  3 <= age data <= 110 /\
  gender data ∈ ["Male"; "Female"] /\
  within_bounds float_nan 1 60 (tenure data) /\
  within_bounds float_nan 1 30 (usage_frequency data) /\
  within_bounds float_nan 0 10 (support_calls data) /\
  within_bounds float_nan 0 30 (payment_delay data) /\
  subscription_type data ∈ ["Standard"; "Basic"; "Premium"] /\
  contract_length data ∈ ["Annual"; "Monthly"; "Quarterly"] /\
  within_bounds float_nan 100 1000 (total_spend data) /\
  within_bounds float_nan 1 30 (last_interaction data).

(** The JSON encoding of a Python value. *)
Definition json_of_PyVal (v : PyVal) : json :=
  match v with
  | PInt z => JInt z
  | PFloat (Finite q) => JFloat q
  | PFloat (Infinity negative) => JInfinity negative
  | PFloat NaN => JNaN
  | PStr s => JStr s
  end.

(** A dumped row as a request body: the JSON object with the row's keys. *)
Definition body_of_row (row : list (string * PyVal)) : gmap string json :=
  list_to_map (List.map (fun kv => (fst kv, json_of_PyVal (snd kv))) row).

(** A dependency that asks for some credentials and refuses with 401
    without them. *)
Definition bearer_required (authorization : option unit)
  : HTTPException + string :=
  match authorization with
  | Some _ => inr "alice"
  | None => inl {| status_code := 401; detail := "Not authenticated" |}
  end.

(** ** The form client ([app.py]) *)

Module App.

(** [BASE_URL] *)
Definition BASE_URL : string := "http://127.0.0.1:8000".

(** A response of [requests.post] as the client reads it: the status code
    and [res.json()] read as a dictionary, which raises when the content is
    not JSON or not an object. *)
Record ClientResponse : Type := {
  res_status_code : Z;
  res_json : PyException + gmap string json
}.

(** The texts the client shows, by their template. *)
Inductive Message : Type :=
  | WelcomeBack (username : string)
  | InvalidCredentials
  | ConnectionFailed (e : PyException).

(** The Streamlit calls of the client functions. *)
Inductive UI : Type :=
  | st_success (message : Message)
  | st_error (message : Message)
  | st_rerun.

(** Lines 14-17: [st.session_state] gets its two keys, with [None]
    ([JNull]), unless it has them. *)
Definition init_session (session_state : gmap string json) : gmap string json :=
  let session_state :=
    match session_state !! "token" with
    | None => <["token" := JNull]> session_state
    | Some _ => session_state
    end in
  match session_state !! "username" with
  | None => <["username" := JNull]> session_state
  | Some _ => session_state
  end.

(** [data['access_token']] *)
Definition getitem_access_token (data : gmap string json) : PyException + json :=
  match data !! "access_token" with
  | Some value => inr value
  | None => inl {| exc_class := "KeyError"; exc_str := "'access_token'" |}
  end.

Section Client.

(** [requests.post(url, json=...)]: it raises, or returns a response. *)
Variable requests_post : string -> gmap string json -> PyException + ClientResponse.

(** [def login_user(username, password)], over the session state: the new
    state and the Streamlit calls made. [st.rerun()] ends the script and is
    not caught by [except Exception]. *)
Definition login_user (session_state : gmap string json)
    (username password : string) : gmap string json * list UI :=
  match requests_post (BASE_URL ++ "/login")
          (list_to_map [("username", JStr username); ("password", JStr password)])
  with
  | inl e => (session_state, [st_error (ConnectionFailed e)])
  | inr res =>
      if res_status_code res =? 200 then
        match res_json res with
        | inl e => (session_state, [st_error (ConnectionFailed e)])
        | inr data =>
            match getitem_access_token data with
            | inl e => (session_state, [st_error (ConnectionFailed e)])
            | inr token =>
                (<["username" := JStr username]>
                   (<["token" := token]> session_state),
                 [st_success (WelcomeBack username); st_rerun])
            end
        end
      else (session_state, [st_error InvalidCredentials])
  end.

End Client.

(** [def logout()] *)
Definition logout (session_state : gmap string json)
  : gmap string json * list UI :=
  (<["username" := JNull]> (<["token" := JNull]> session_state), [st_rerun]).

(** The values of the prediction form, named as the script names them. *)
Record FormValues : Type := {
  age : Z;
  gender : string;
  tenure : Q;
  usage : Q;
  calls : Q;
  delay : Q;
  sub_type : string;
  contract : string;
  spend : Q;
  last_inter : Q
}.

(** What the widgets of the form guarantee of their values: the
    [min_value] and [max_value] of each [st.number_input] and the options
    of each [st.selectbox]. *)
Definition within_widgets (v : FormValues) : Prop :=
  3 <= age v <= 110 /\
  gender v ∈ ["Male"; "Female"] /\
  (1 <= tenure v <= 60)%Q /\
  (1 <= usage v <= 30)%Q /\
  (0 <= calls v <= 10)%Q /\
  (0 <= delay v <= 30)%Q /\
  sub_type v ∈ ["Standard"; "Basic"; "Premium"] /\
  contract v ∈ ["Annual"; "Monthly"; "Quarterly"] /\
  (100 <= spend v <= 1000)%Q /\
  (1 <= last_inter v <= 30)%Q.

(** [payload = {...}] of the form, as [requests] sends it: the age is an
    integer, the other numbers are floats. *)
Definition payload (v : FormValues) : gmap string json :=
  list_to_map
    [ ("Age", JInt (age v));
      ("Gender", JStr (gender v));
      ("Tenure", JFloat (tenure v));
      ("Usage Frequency", JFloat (usage v));
      ("Support Calls", JFloat (calls v));
      ("Payment Delay", JFloat (delay v));
      ("Subscription Type", JStr (sub_type v));
      ("Contract Length", JStr (contract v));
      ("Total Spend", JFloat (spend v));
      ("Last Interaction", JFloat (last_inter v)) ].

(** The record the server should read from the form. *)
Definition as_record (v : FormValues) : CustomerData :=
  Build_CustomerData (age v) (gender v) (Finite (tenure v)) (Finite (usage v))
    (Finite (calls v)) (Finite (delay v)) (sub_type v) (contract v)
    (Finite (spend v)) (Finite (last_inter v)).

(** The form's default values. *)
Definition default_values : FormValues :=
  {| age := 20; gender := "Male"; tenure := 30; usage := 15; calls := 5;
     delay := 15; sub_type := "Standard"; contract := "Annual";
     spend := 550; last_inter := 15 |}.

End App.

(** ** Proof automation *)

(** Membership in a literal set or list, as a disjunction of equations. *)
Ltac enum_membership :=
  repeat first
    [ rewrite elem_of_union | rewrite elem_of_singleton
    | rewrite elem_of_cons | rewrite elem_of_nil ].

Ltac solve_enum_validator :=
  let Hin := fresh "Hin" in
  let Hd := fresh "Hd" in
  intros value cleaned; split; intros Hin;
  (destruct (decide _) as [Hd|Hd]);
  [ exfalso; apply Hd; revert Hin; enum_membership; tauto
  | reflexivity
  | eexists; split; [reflexivity|]; simpl; split; [|reflexivity];
    intros permitted; enum_membership; tauto
  | exfalso; apply Hin; apply dec_stable in Hd; revert Hd;
    enum_membership; tauto ].

(** Case analysis on the 256 characters. *)
Ltac each_char c := destruct c as [[] [] [] [] [] [] [] []].

(** * Properties *)

(** ** Strings *)

Lemma lower_char_idem (c : ascii) :
  PyStr.lower_char (PyStr.lower_char c) = PyStr.lower_char c.
Proof. each_char c; reflexivity. Qed.

Lemma lower_upper_char (c : ascii) :
  PyStr.lower_char (PyStr.upper_char c) = PyStr.lower_char c.
Proof. each_char c; reflexivity. Qed.

Lemma upper_lower_char (c : ascii) :
  PyStr.upper_char (PyStr.lower_char c) = PyStr.upper_char c.
Proof. each_char c; reflexivity. Qed.

Lemma iscased_lower_char (c : ascii) :
  PyStr.iscased (PyStr.lower_char c) = PyStr.iscased c.
Proof. each_char c; reflexivity. Qed.

Lemma lower_title_from (flag : bool) (s : string) :
  PyStr.lower (PyStr.title_from flag s) = PyStr.lower s.
Proof.
  revert flag. induction s as [|c s IH]; intros flag; simpl; [reflexivity|].
  rewrite IH. destruct flag.
  - by rewrite lower_char_idem.
  - by rewrite lower_upper_char.
Qed.

Lemma title_from_lower (flag : bool) (s : string) :
  PyStr.title_from flag (PyStr.lower s) = PyStr.title_from flag s.
Proof.
  revert flag. induction s as [|c s IH]; intros flag; simpl; [reflexivity|].
  rewrite iscased_lower_char, IH. destruct flag.
  - by rewrite lower_char_idem.
  - by rewrite upper_lower_char.
Qed.

(** Title-casing forgets the case of its input and nothing else. *)
Lemma title_eq_iff_lower_eq (s t : string) :
  PyStr.title_ascii s = PyStr.title_ascii t <-> PyStr.lower s = PyStr.lower t.
Proof.
  unfold PyStr.title_ascii. split; intros H.
  - rewrite <- (lower_title_from false s), <- (lower_title_from false t).
    by rewrite H.
  - rewrite <- (title_from_lower false s), <- (title_from_lower false t).
    by rewrite H.
Qed.

(** [isspace] holds of the ten whitespace characters of ASCII and of no
    other character. *)
Lemma isspace_spec (c : ascii) :
  PyStr.isspace c = true <-> PyStr.ord c ∈ ascii_whitespace.
Proof.
  unfold ascii_whitespace. rewrite !elem_of_cons, elem_of_nil.
  each_char c; vm_compute; split; intros H; first [reflexivity | discriminate | tauto | idtac].
  all: repeat (destruct H as [H|H]; [discriminate|]); contradiction.
Qed.

Lemma same_letter_lower (a b : ascii) :
  same_letter a b -> PyStr.lower_char a = PyStr.lower_char b.
Proof.
  intros [-> | [[Hrange Hb] | [Hrange Ha]]]; [reflexivity| |].
  - rewrite <- (ascii_N_embedding b). unfold PyStr.ord in *. rewrite Hb.
    clear Hb. revert Hrange. each_char a; vm_compute; intros [H1 H2];
      first [reflexivity | by destruct H1 | by destruct H2].
  - rewrite <- (ascii_N_embedding a). unfold PyStr.ord in *. rewrite Ha.
    clear Ha. revert Hrange. each_char b; vm_compute; intros [H1 H2];
      first [reflexivity | by destruct H1 | by destruct H2].
Qed.

Lemma same_letter_isspace (a b : ascii) :
  same_letter a b -> PyStr.isspace a = PyStr.isspace b.
Proof.
  intros [-> | [[Hrange Hb] | [Hrange Ha]]]; [reflexivity| |].
  - rewrite <- (ascii_N_embedding b). unfold PyStr.ord in *. rewrite Hb.
    clear Hb. revert Hrange. each_char a; vm_compute; intros [H1 H2];
      first [reflexivity | by destruct H1 | by destruct H2].
  - rewrite <- (ascii_N_embedding a). unfold PyStr.ord in *. rewrite Ha.
    clear Ha. revert Hrange. each_char b; vm_compute; intros [H1 H2];
      first [reflexivity | by destruct H1 | by destruct H2].
Qed.

Lemma same_letter_lower_char (c : ascii) : same_letter c (PyStr.lower_char c).
Proof.
  destruct (PyStr.isupper c) eqn:Hupper.
  - right; left. revert Hupper.
    each_char c; vm_compute; intros Hupper; try discriminate;
      (split; [split; discriminate | reflexivity]).
  - left. unfold PyStr.lower_char. by rewrite Hupper.
Qed.

Lemma same_letter_upper_char (c : ascii) : same_letter c (PyStr.upper_char c).
Proof.
  destruct (PyStr.islower c) eqn:Hlower.
  - right; right. revert Hlower.
    each_char c; vm_compute; intros Hlower; try discriminate;
      (split; [split; discriminate | reflexivity]).
  - left. unfold PyStr.upper_char. by rewrite Hlower.
Qed.

Lemma spells_title_from (flag : bool) (s : string) :
  spells s (PyStr.title_from flag s).
Proof.
  revert flag. induction s as [|c s IH]; intros flag; simpl; constructor.
  - destruct flag; [apply same_letter_lower_char | apply same_letter_upper_char].
  - apply IH.
Qed.

Lemma spells_lower (s w : string) :
  spells s w -> PyStr.lower s = PyStr.lower w.
Proof.
  induction 1 as [|a b s w Hab _ IH]; simpl; [reflexivity|].
  by rewrite IH, (same_letter_lower _ _ Hab).
Qed.

Lemma spells_unspaced (s w : string) :
  spells s w -> unspaced w = true -> unspaced s = true.
Proof.
  induction 1 as [|a b s w Hab _ IH]; simpl; [done|].
  rewrite (same_letter_isspace _ _ Hab).
  intros [-> Hw]%andb_true_iff. by rewrite IH.
Qed.

Lemma isascii_app (s t : string) :
  PyStr.isascii (s ++ t) = PyStr.isascii s && PyStr.isascii t.
Proof.
  induction s as [|c s IH]; simpl; [reflexivity|].
  by rewrite IH, andb_assoc.
Qed.

Lemma lstrip_decompose (s : string) :
  exists before, s = before ++ PyStr.lstrip s /\ blank before.
Proof.
  induction s as [|c s (before & IH & Hblank)]; simpl.
  - exists "". split; [reflexivity | constructor].
  - destruct (PyStr.isspace c) eqn:Hc.
    + exists (String c before). split; [exact (f_equal (String c) IH)|].
      constructor; [by apply isspace_spec | exact Hblank].
    + exists "". split; [reflexivity | constructor].
Qed.

Lemma rstrip_decompose (s : string) :
  exists after, s = PyStr.rstrip s ++ after /\ blank after.
Proof.
  induction s as [|c s (after & IH & Hblank)]; simpl.
  - exists "". split; [reflexivity | constructor].
  - destruct (PyStr.rstrip s) as [|c' r] eqn:Hr.
    + assert (s = after) as -> by exact IH.
      destruct (PyStr.isspace c) eqn:Hc.
      * exists (String c after). split; [reflexivity|].
        constructor; [by apply isspace_spec | exact Hblank].
      * exists after. by split.
    + exists after. split; [exact (f_equal (String c) IH)|exact Hblank].
Qed.

(** What [strip] removes is whitespace at the two ends. *)
Lemma strip_decompose (s : string) :
  exists before after,
    s = before ++ PyStr.strip_ascii s ++ after /\ blank before /\ blank after.
Proof.
  destruct (lstrip_decompose s) as (before & Hs & Hbefore).
  destruct (rstrip_decompose (PyStr.lstrip s)) as (after & Hl & Hafter).
  exists before, after. unfold PyStr.strip_ascii.
  split; [|by split]. by rewrite <- Hl.
Qed.

Lemma lstrip_blank (before s : string) :
  blank before -> PyStr.lstrip (before ++ s) = PyStr.lstrip s.
Proof.
  induction 1 as [|c before Hc _ IH]; simpl; [reflexivity|].
  apply isspace_spec in Hc. by rewrite Hc.
Qed.

Lemma rstrip_blank (after : string) : blank after -> PyStr.rstrip after = "".
Proof.
  induction 1 as [|c after Hc _ IH]; simpl; [reflexivity|].
  apply isspace_spec in Hc. by rewrite IH, Hc.
Qed.

Lemma rstrip_app_blank (s after : string) :
  blank after -> PyStr.rstrip (s ++ after) = PyStr.rstrip s.
Proof.
  intros Hafter. induction s as [|c s IH]; simpl.
  - by apply rstrip_blank.
  - by rewrite IH.
Qed.

Lemma rstrip_unspaced (s : string) : unspaced s = true -> PyStr.rstrip s = s.
Proof.
  induction s as [|c s IH]; simpl; [reflexivity|].
  intros [Hc Hs]%andb_true_iff. rewrite (IH Hs).
  destruct s; [|reflexivity]. by destruct (PyStr.isspace c).
Qed.

(** Whitespace around a text without whitespace is what [strip] removes. *)
Lemma strip_padded (before core after : string) :
  blank before -> blank after -> unspaced core = true ->
  PyStr.strip_ascii (before ++ core ++ after) = core.
Proof.
  intros Hbefore Hafter Hcore. unfold PyStr.strip_ascii.
  rewrite (lstrip_blank _ _ Hbefore).
  destruct core as [|c core].
  - simpl. destruct (lstrip_decompose after) as (pre & Heq & _).
    assert (Hrest : blank (PyStr.lstrip after)).
    { clear Heq. induction Hafter as [|c after Hc _ IH]; simpl.
      - constructor.
      - apply isspace_spec in Hc. by rewrite Hc. }
    by apply rstrip_blank.
  - simpl in Hcore. apply andb_true_iff in Hcore as [Hc Hcore].
    simpl PyStr.lstrip. destruct (PyStr.isspace c) eqn:Hspace; [discriminate|].
    change (String c (core ++ after)) with (String c core ++ after).
    rewrite (rstrip_app_blank _ _ Hafter).
    apply rstrip_unspaced. simpl. by rewrite Hspace, Hcore.
Qed.

Lemma isascii_strip (s : string) :
  PyStr.isascii s = true -> PyStr.isascii (PyStr.strip_ascii s) = true.
Proof.
  destruct (strip_decompose s) as (before & after & Hs & _).
  intros Hascii. rewrite Hs, !isascii_app in Hascii.
  by apply andb_true_iff in Hascii as [_ [H _]%andb_true_iff].
Qed.

Section Spelling.

Variable unicode : PyStr.Unicode.

(** On ASCII input, trimming and title-casing give a clean word exactly
    from a padded spelling of the word. *)
Lemma cleaned_iff_padded_spelling (value w : string) :
  PyStr.isascii value = true ->
  PyStr.title_ascii w = w -> unspaced w = true ->
  PyStr.title unicode (PyStr.strip unicode value) = w <->
  padded_spelling value w.
Proof.
  intros Hascii Htitle Hw. unfold PyStr.strip. rewrite Hascii. split.
  - intros Hcleaned. unfold PyStr.title in Hcleaned.
    rewrite (isascii_strip _ Hascii) in Hcleaned.
    destruct (strip_decompose value) as (before & after & Hs & Hb & Ha).
    exists before, (PyStr.strip_ascii value), after.
    repeat split; [exact Hs | exact Hb | exact Ha |].
    rewrite <- Hcleaned. apply spells_title_from.
  - intros (before & core & after & -> & Hb & Ha & Hspells).
    rewrite (strip_padded _ _ _ Hb Ha (spells_unspaced _ _ Hspells Hw)).
    rewrite !isascii_app in Hascii.
    apply andb_true_iff in Hascii as [_ [Hcore _]%andb_true_iff].
    unfold PyStr.title. rewrite Hcore, <- Htitle.
    apply title_eq_iff_lower_eq. by apply spells_lower.
Qed.

(** ** Enum validators *)

Lemma gender_checked :
  trims_titles_then_checks unicode (validate_gender unicode) ["Male"; "Female"].
Proof. unfold validate_gender. solve_enum_validator. Qed.

Lemma subscription_checked :
  trims_titles_then_checks unicode (validate_subscription unicode)
    ["Standard"; "Basic"; "Premium"].
Proof. unfold validate_subscription. solve_enum_validator. Qed.

Lemma contract_checked :
  trims_titles_then_checks unicode (validate_contract unicode)
    ["Annual"; "Monthly"; "Quarterly"].
Proof. unfold validate_contract. solve_enum_validator. Qed.

(** What a validator under the trim-title-check contract returns. *)
Lemma contract_inr (validator : string -> ValueError + string)
    (allowed : list string) (value cleaned : string) :
  trims_titles_then_checks unicode validator allowed ->
  validator value = inr cleaned <->
  cleaned = PyStr.title unicode (PyStr.strip unicode value) /\ cleaned ∈ allowed.
Proof.
  intros Hcontract. destruct (Hcontract value) as [Hok Hbad]. split.
  - intros Hv.
    destruct (decide (PyStr.title unicode (PyStr.strip unicode value) ∈ allowed))
      as [Hin|Hout].
    + rewrite (Hok Hin) in Hv. injection Hv as <-. by split.
    + destruct (Hbad Hout) as (err & Herr & _). congruence.
  - intros [-> Hin]. by apply Hok.
Qed.

(** What a validator under the contract raises. *)
Lemma contract_inl (validator : string -> ValueError + string)
    (allowed : list string) (value : string) (err : ValueError) :
  trims_titles_then_checks unicode validator allowed ->
  validator value = inl err ->
  (forall permitted, permitted ∈ ve_allowed err <-> permitted ∈ allowed) /\
  ve_sent err = value.
Proof.
  intros Hcontract Hv. destruct (Hcontract value) as [Hok Hbad].
  destruct (decide (PyStr.title unicode (PyStr.strip unicode value) ∈ allowed))
    as [Hin|Hout].
  - rewrite (Hok Hin) in Hv. discriminate.
  - destruct (Hbad Hout) as (err' & Herr & Hlist & Hsent).
    rewrite Herr in Hv. injection Hv as <-. by split.
Qed.

Lemma strip_title_fixed_gender (c : string) :
  c ∈ ["Male"; "Female"] ->
  PyStr.strip unicode c = c /\ PyStr.title unicode c = c.
Proof.
  enum_membership. intros [-> | [-> | []]]; by vm_compute.
Qed.

Lemma strip_title_fixed_subscription (c : string) :
  c ∈ ["Standard"; "Basic"; "Premium"] ->
  PyStr.strip unicode c = c /\ PyStr.title unicode c = c.
Proof.
  enum_membership. intros [-> | [-> | [-> | []]]]; by vm_compute.
Qed.

Lemma strip_title_fixed_contract (c : string) :
  c ∈ ["Annual"; "Monthly"; "Quarterly"] ->
  PyStr.strip unicode c = c /\ PyStr.title unicode c = c.
Proof.
  enum_membership. intros [-> | [-> | [-> | []]]]; by vm_compute.
Qed.

Lemma clean_words_gender (w : string) :
  w ∈ ["Male"; "Female"] -> PyStr.title_ascii w = w /\ unspaced w = true.
Proof.
  enum_membership. intros [-> | [-> | []]]; by vm_compute.
Qed.

Lemma clean_words_subscription (w : string) :
  w ∈ ["Standard"; "Basic"; "Premium"] ->
  PyStr.title_ascii w = w /\ unspaced w = true.
Proof.
  enum_membership. intros [-> | [-> | [-> | []]]]; by vm_compute.
Qed.

Lemma clean_words_contract (w : string) :
  w ∈ ["Annual"; "Monthly"; "Quarterly"] ->
  PyStr.title_ascii w = w /\ unspaced w = true.
Proof.
  enum_membership. intros [-> | [-> | [-> | []]]]; by vm_compute.
Qed.

(** Under the contract, when the allowed values are clean words, a
    validator accepts of the ASCII inputs exactly the padded spellings of
    an allowed value. *)
Lemma contract_padded_spellings (validator : string -> ValueError + string)
    (allowed : list string) :
  trims_titles_then_checks unicode validator allowed ->
  (forall w, w ∈ allowed -> PyStr.title_ascii w = w /\ unspaced w = true) ->
  accepts_padded_spellings validator allowed.
Proof.
  intros Hcontract Hclean value w Hascii.
  rewrite (contract_inr _ allowed _ _ Hcontract). split.
  - intros [Hw Hin]. split; [exact Hin|].
    destruct (Hclean _ Hin) as [Htitle Hunspaced].
    by apply (cleaned_iff_padded_spelling _ _ Hascii Htitle Hunspaced).
  - intros [Hin Hpadded]. split; [|exact Hin].
    destruct (Hclean _ Hin) as [Htitle Hunspaced]. symmetry.
    by apply (cleaned_iff_padded_spelling _ _ Hascii Htitle Hunspaced).
Qed.

Lemma contract_idempotent (validator : string -> ValueError + string)
    (allowed : list string) (value cleaned : string) :
  trims_titles_then_checks unicode validator allowed ->
  (forall c, c ∈ allowed ->
     PyStr.strip unicode c = c /\ PyStr.title unicode c = c) ->
  validator value = inr cleaned -> validator cleaned = inr cleaned.
Proof.
  intros Hcontract Hfixed Hv.
  destruct (proj1 (contract_inr _ allowed _ _ Hcontract) Hv) as [_ Hin].
  apply (contract_inr _ allowed _ _ Hcontract).
  destruct (Hfixed _ Hin) as [-> ->]. by split.
Qed.

End Spelling.

(** C3: each enum field (gender, subscription type, contract length) is
    validated by trimming surrounding whitespace and title-casing the
    input, then testing the cleaned value for membership in the field's
    fixed set; on success the cleaned value is the result, on failure the
    error lists the permitted values (and the input as sent). On ASCII
    input this accepts exactly the inputs that are an allowed value
    written in any mix of upper and lower case with whitespace before and
    after it, and nothing else: inner whitespace, other separators or
    other words are rejected. In particular " male ", "Male", "MALE" and
    "female" between a tab and a line feed validate to the normalized
    value, also as the "Gender" of a request body, and "Other", "fe male"
    and the empty text are rejected. *)
Theorem enum_fields_trim_title_then_membership (unicode : PyStr.Unicode) :
  trims_titles_then_checks unicode (validate_gender unicode)
    ["Male"; "Female"] /\
  trims_titles_then_checks unicode (validate_subscription unicode)
    ["Standard"; "Basic"; "Premium"] /\
  trims_titles_then_checks unicode (validate_contract unicode)
    ["Annual"; "Monthly"; "Quarterly"] /\
  accepts_padded_spellings (validate_gender unicode) ["Male"; "Female"] /\
  accepts_padded_spellings (validate_subscription unicode)
    ["Standard"; "Basic"; "Premium"] /\
  accepts_padded_spellings (validate_contract unicode)
    ["Annual"; "Monthly"; "Quarterly"] /\
  validate_gender unicode " male " = inr "Male" /\
  validate_gender unicode "Male" = inr "Male" /\
  validate_gender unicode "MALE" = inr "Male" /\
  validate_gender unicode (String "009" ("female" ++ String "010" ""))
    = inr "Female" /\
  validate_gender unicode "Other" =
    inl {| ve_subject := "Gender"; ve_allowed := {[ "Male"; "Female" ]};
           ve_sent := "Other" |} /\
  validate_gender unicode "fe male" =
    inl {| ve_subject := "Gender"; ve_allowed := {[ "Male"; "Female" ]};
           ve_sent := "fe male" |} /\
  validate_gender unicode "" =
    inl {| ve_subject := "Gender"; ve_allowed := {[ "Male"; "Female" ]};
           ve_sent := "" |} /\
  validate_subscription unicode "  pREMIUM" = inr "Premium" /\
  validate_subscription unicode "Pre mium" =
    inl {| ve_subject := "Subscription";
           ve_allowed := {[ "Standard"; "Basic"; "Premium" ]};
           ve_sent := "Pre mium" |} /\
  validate_contract unicode "quarterly " = inr "Quarterly" /\
  validate_contract unicode "Yearly" =
    inl {| ve_subject := "Contract";
           ve_allowed := {[ "Annual"; "Monthly"; "Quarterly" ]};
           ve_sent := "Yearly" |} /\
  CustomerData_validate unicode no_str_as_int no_str_as_float nan_passes
    (<["Gender" := JStr " male "]> example_body) = inr example_data /\
  CustomerData_validate unicode no_str_as_int no_str_as_float nan_passes
    (<["Gender" := JStr "Male"]> example_body) = inr example_data.
Proof.
  split; [exact (gender_checked unicode)|].
  split; [exact (subscription_checked unicode)|].
  split; [exact (contract_checked unicode)|].
  split; [exact (contract_padded_spellings unicode _ _
                   (gender_checked unicode) clean_words_gender)|].
  split; [exact (contract_padded_spellings unicode _ _
                   (subscription_checked unicode) clean_words_subscription)|].
  split; [exact (contract_padded_spellings unicode _ _
                   (contract_checked unicode) clean_words_contract)|].
  repeat split; vm_compute; reflexivity.
Qed.

(** X2: the enum validators are idempotent: a value a validator has
    returned validates again, to itself. *)
Theorem enum_validators_idempotent (unicode : PyStr.Unicode)
    (value cleaned : string) :
  (validate_gender unicode value = inr cleaned ->
     validate_gender unicode cleaned = inr cleaned) /\
  (validate_subscription unicode value = inr cleaned ->
     validate_subscription unicode cleaned = inr cleaned) /\
  (validate_contract unicode value = inr cleaned ->
     validate_contract unicode cleaned = inr cleaned).
Proof.
  split; [|split].
  - exact (contract_idempotent unicode _ _ _ _ (gender_checked unicode)
             (strip_title_fixed_gender unicode)).
  - exact (contract_idempotent unicode _ _ _ _ (subscription_checked unicode)
             (strip_title_fixed_subscription unicode)).
  - exact (contract_idempotent unicode _ _ _ _ (contract_checked unicode)
             (strip_title_fixed_contract unicode)).
Qed.

(** ** The input schema *)

Lemma v_ap_inr {A B : Type} (vf : Validated (A -> B)) (va : Validated A) (b : B) :
  vf <&> va = inr b -> exists f a, vf = inr f /\ va = inr a /\ b = f a.
Proof.
  destruct vf as [ef|f], va as [ea|a]; simpl; intros H; try discriminate.
  injection H as <-. by exists f, a.
Qed.

Lemma errors_of_v_ap {A B : Type} (vf : Validated (A -> B)) (va : Validated A) :
  errors_of (vf <&> va) = (errors_of vf ++ errors_of va)%list.
Proof.
  destruct vf, va; simpl; try reflexivity. by rewrite app_nil_r.
Qed.

Lemma v_ap_not_empty {A B : Type} (vf : Validated (A -> B)) (va : Validated A) :
  vf <> inl [] -> va <> inl [] -> vf <&> va <> inl [].
Proof.
  destruct vf as [ef|f], va as [ea|a]; simpl; intros Hf Ha [= H].
  - apply app_eq_nil in H as [-> _]. by apply Hf.
  - subst. by apply Hf.
  - subst. by apply Ha.
Qed.

Lemma kinds_of_v_ap {A B : Type} (vf vf' : Validated (A -> B))
    (va va' : Validated A) :
  kinds_of vf = kinds_of vf' -> kinds_of va = kinds_of va' ->
  kinds_of (vf <&> va) = kinds_of (vf' <&> va').
Proof.
  destruct vf as [ef|f], vf' as [ef'|f'], va as [ea|a], va' as [ea'|a'];
    simpl; intros [= Hf] [= Ha]; rewrite ?map_app; congruence.
Qed.

(** Membership in [fields], case by case. *)
Lemma elem_of_fields (name alias : string) :
  (name, alias) ∈ fields ->
  (name, alias) = ("age", "Age") \/ (name, alias) = ("gender", "Gender") \/
  (name, alias) = ("tenure", "Tenure") \/
  (name, alias) = ("usage_frequency", "Usage Frequency") \/
  (name, alias) = ("support_calls", "Support Calls") \/
  (name, alias) = ("payment_delay", "Payment Delay") \/
  (name, alias) = ("subscription_type", "Subscription Type") \/
  (name, alias) = ("contract_length", "Contract Length") \/
  (name, alias) = ("total_spend", "Total Spend") \/
  (name, alias) = ("last_interaction", "Last Interaction").
Proof.
  unfold fields. rewrite !elem_of_cons, elem_of_nil. tauto.
Qed.

(** No two of the twenty keys of the schema coincide. *)
Lemma fields_distinct (name alias name' alias' : string) :
  (name, alias) ∈ fields -> (name', alias') ∈ fields ->
  name <> alias /\
  ((name = name' /\ alias = alias') \/
   (name <> name' /\ name <> alias' /\ alias <> name' /\ alias <> alias')).
Proof.
  intros H H'. apply elem_of_fields in H, H'.
  repeat (destruct H as [H|H]); injection H as -> ->;
  repeat (destruct H' as [H'|H']); injection H' as -> ->;
  (split; [discriminate|]);
  first [ left; split; reflexivity | right; repeat split; discriminate ].
Qed.

(** The key a value is found under is the alias, or the name when the
    alias is absent. *)
Lemma lookup_key_Some (b : gmap string json) (name alias key : string)
    (v : json) :
  lookup_key model_config b alias name = Some (key, v) <->
  (key = alias /\ b !! alias = Some v) \/
  (key = name /\ b !! alias = None /\ b !! name = Some v).
Proof.
  unfold lookup_key. simpl.
  destruct (b !! alias) as [va|]; [|destruct (b !! name) as [vn|]].
  - split.
    + intros [= <- <-]. by left.
    + intros [[-> [= ->]] | (_ & [=] & _)]. reflexivity.
  - split.
    + intros [= <- <-]. by right.
    + intros [[_ [=]] | (-> & _ & [= ->])]. reflexivity.
  - split; [discriminate|]. by intros [[_ [=]] | (_ & _ & [=])].
Qed.

Lemma lookup_key_None (b : gmap string json) (name alias : string) :
  lookup_key model_config b alias name = None <->
  b !! alias = None /\ b !! name = None.
Proof.
  unfold lookup_key. simpl.
  destruct (b !! alias) as [va|]; [|destruct (b !! name) as [vn|]];
    split; try discriminate; try done; by intros [[=] [=]] || by intros [_ [=]].
Qed.

(** A required field gives its value, or one error: "missing" under the
    alias, quoting the body, or the failure of the value found, under the
    key it was found under. *)
Lemma Field_cases {A : Type} (b : gmap string json) (name alias : string)
    (schema : json -> ErrorType + A) :
  (exists a, Field b name alias schema = inr a) \/
  (b !! alias = None /\ b !! name = None /\
   Field b name alias schema =
     inl [ {| loc := alias; type := missing; input := InBody b |} ]) \/
  (exists key v e,
     ((key = alias /\ b !! alias = Some v) \/
      (key = name /\ b !! alias = None /\ b !! name = Some v)) /\
     schema v = inl e /\
     Field b name alias schema =
       inl [ {| loc := key; type := e; input := InValue v |} ]).
Proof.
  unfold Field.
  destruct (lookup_key model_config b alias name) as [[key v]|] eqn:Hkey.
  - apply lookup_key_Some in Hkey.
    destruct (schema v) as [e|a] eqn:Hv.
    + right; right. by exists key, v, e.
    + left. by exists a.
  - apply lookup_key_None in Hkey as [Ha Hn]. right; left. by repeat split.
Qed.

Lemma Field_not_empty {A : Type} (b : gmap string json) (name alias : string)
    (schema : json -> ErrorType + A) :
  Field b name alias schema <> inl [].
Proof.
  destruct (Field_cases b name alias schema)
    as [[a ->] | [(_ & _ & ->) | (key & v & e & _ & _ & ->)]]; done.
Qed.

Lemma Field_inr {A : Type} (b : gmap string json) (name alias : string)
    (schema : json -> ErrorType + A) (a : A) :
  Field b name alias schema = inr a <->
  exists key v, lookup_key model_config b alias name = Some (key, v) /\
                schema v = inr a.
Proof.
  unfold Field.
  destruct (lookup_key model_config b alias name) as [[key v]|].
  - destruct (schema v) as [e|a'] eqn:Hv; split.
    + discriminate.
    + intros (key' & v' & [= <- <-] & Hv'). congruence.
    + intros [= <-]. by exists key, v.
    + intros (key' & v' & [= <- <-] & Hv'). congruence.
  - split; [discriminate|]. by intros (key' & v' & [=] & _).
Qed.

Lemma Field_inr_lookup {A : Type} (b : gmap string json) (name alias : string)
    (schema : json -> ErrorType + A) (a : A) :
  Field b name alias schema = inr a ->
  is_Some (b !! alias) \/ is_Some (b !! name).
Proof.
  intros (key & v & Hkey & _)%Field_inr.
  apply lookup_key_Some in Hkey as [[_ Hv] | (_ & _ & Hv)];
    [left | right]; by eexists.
Qed.

Lemma Field_inr_schema {A : Type} (b : gmap string json) (name alias : string)
    (schema : json -> ErrorType + A) (a : A) :
  Field b name alias schema = inr a -> exists v, schema v = inr a.
Proof.
  intros (key & v & _ & Hv)%Field_inr. by exists v.
Qed.

Lemma Field_lookup_alias {A : Type} (b : gmap string json) (name alias : string)
    (schema : json -> ErrorType + A) (v : json) (a : A) :
  b !! alias = Some v -> schema v = inr a ->
  Field b name alias schema = inr a.
Proof.
  intros Hb Hv. unfold Field, lookup_key. by rewrite Hb, Hv.
Qed.

Lemma Field_missing {A : Type} (b : gmap string json) (name alias : string)
    (schema : json -> ErrorType + A) :
  b !! alias = None -> b !! name = None ->
  Field b name alias schema =
    inl [ {| loc := alias; type := missing; input := InBody b |} ].
Proof.
  intros Ha Hn. unfold Field, lookup_key. by rewrite Ha, Hn.
Qed.

Lemma Field_insert_alias {A : Type} (b : gmap string json) (name alias : string)
    (schema : json -> ErrorType + A) (v : json) :
  Field (<[alias := v]> b) name alias schema =
  match schema v with
  | inl e => inl [ {| loc := alias; type := e; input := InValue v |} ]
  | inr a => inr a
  end.
Proof. unfold Field, lookup_key. by rewrite lookup_insert_eq. Qed.

(** A field that validates is not disturbed by another key. *)
Lemma Field_insert_ne {A : Type} (b : gmap string json) (name alias : string)
    (schema : json -> ErrorType + A) (a : A) :
  Field b name alias schema = inr a ->
  forall (k : string) (v : json), k <> alias -> k <> name ->
  Field (<[k := v]> b) name alias schema = inr a.
Proof.
  intros H k v Ha Hn. revert H. rewrite !Field_inr.
  intros (key & w & Hkey & Hw).
  exists key, w. split; [|exact Hw].
  unfold lookup_key in *. by rewrite !lookup_insert_ne.
Qed.

(** A field reads a body only through the value it finds. *)
Lemma Field_ext {A : Type} (b b' : gmap string json) (name alias : string)
    (schema : json -> ErrorType + A) :
  snd <$> lookup_key model_config b alias name
    = snd <$> lookup_key model_config b' alias name ->
  kinds_of (Field b name alias schema) = kinds_of (Field b' name alias schema).
Proof.
  unfold Field.
  destruct (lookup_key model_config b alias name) as [[key v]|],
           (lookup_key model_config b' alias name) as [[key' v']|];
    simpl; intros H; try discriminate; [|reflexivity].
  injection H as <-. by destruct (schema v).
Qed.

Section SchemaFacts.

Variable unicode : PyStr.Unicode.
Variable str_as_int : string -> ErrorType + Z.
Variable str_as_float : string -> ErrorType + pyfloat.
Variable float_nan : Z -> Z -> option ErrorType.

Abbreviation validate :=
  (CustomerData_validate unicode str_as_int str_as_float float_nan).
Abbreviation errors_in :=
  (field_errors unicode str_as_int str_as_float float_nan).

(** A body validates exactly when each field does, and the record holds
    the ten results. *)
Lemma validate_inr (b : gmap string json) (data : CustomerData) :
  validate b = inr data <->
  Field b "age" "Age" (int_ge_le str_as_int 3 110) = inr (age data) /\
  Field b "gender" "Gender" (str_with (validate_gender unicode))
    = inr (gender data) /\
  Field b "tenure" "Tenure"
    (float_ge_le str_as_float float_nan 1 60) = inr (tenure data) /\
  Field b "usage_frequency" "Usage Frequency"
    (float_ge_le str_as_float float_nan 1 30)
    = inr (usage_frequency data) /\
  Field b "support_calls" "Support Calls"
    (float_ge_le str_as_float float_nan 0 10)
    = inr (support_calls data) /\
  Field b "payment_delay" "Payment Delay"
    (float_ge_le str_as_float float_nan 0 30)
    = inr (payment_delay data) /\
  Field b "subscription_type" "Subscription Type"
    (str_with (validate_subscription unicode)) = inr (subscription_type data) /\
  Field b "contract_length" "Contract Length"
    (str_with (validate_contract unicode)) = inr (contract_length data) /\
  Field b "total_spend" "Total Spend"
    (float_ge_le str_as_float float_nan 100 1000)
    = inr (total_spend data) /\
  Field b "last_interaction" "Last Interaction"
    (float_ge_le str_as_float float_nan 1 30)
    = inr (last_interaction data).
Proof.
  unfold CustomerData_validate. split.
  - intros H.
    repeat match type of H with
    | _ <&> _ = inr _ =>
        let f := fresh "f" in let a := fresh "a" in
        let Ha := fresh "Ha" in let Hb := fresh "Hb" in
        apply v_ap_inr in H as (f & a & H & Ha & Hb)
    end.
    injection H as <-. subst. simpl. by repeat split.
  - intros (-> & -> & -> & -> & -> & -> & -> & -> & -> & ->).
    simpl. by destruct data.
Qed.

Lemma validate_errors (b : gmap string json) :
  errors_of (validate b) = errors_in b.
Proof.
  unfold CustomerData_validate, field_errors.
  rewrite !errors_of_v_ap. simpl. by rewrite <- !app_assoc.
Qed.

Lemma validate_not_empty (b : gmap string json) : validate b <> inl [].
Proof.
  unfold CustomerData_validate.
  repeat (apply v_ap_not_empty; [|apply Field_not_empty]). discriminate.
Qed.

(** A body is rejected with the errors of its fields. *)
Lemma validate_inl (b : gmap string json) (errs : list ValidationError) :
  validate b = inl errs <-> errs = errors_in b /\ errs <> [].
Proof.
  pose proof (validate_errors b) as Herrors.
  pose proof (validate_not_empty b) as Hnonempty.
  destruct (validate b) as [errs'|data]; simpl in Herrors.
  - split.
    + intros [= ->]. split; [done | congruence].
    + intros [-> _]. by rewrite Herrors.
  - split; [discriminate|]. intros [-> Hne]. by rewrite <- Herrors in Hne.
Qed.

(** Validation reads a body only through the values it finds for its ten
    fields: two bodies that supply the same values, under whichever keys,
    validate to the same record or fail with the same kinds of errors. *)
Lemma validate_ext (b b' : gmap string json) :
  (forall name alias, (name, alias) ∈ fields ->
     snd <$> lookup_key model_config b alias name
       = snd <$> lookup_key model_config b' alias name) ->
  kinds_of (validate b) = kinds_of (validate b').
Proof.
  intros H. unfold CustomerData_validate.
  repeat (apply kinds_of_v_ap;
          [|apply Field_ext, H; unfold fields; rewrite !elem_of_cons; tauto]).
  reflexivity.
Qed.

Lemma kinds_of_inr {A : Type} (v : Validated A) (a : A) :
  kinds_of v = inr a <-> v = inr a.
Proof. destruct v; simpl; split; congruence. Qed.

(** The double an integer converts to is the integer itself below 2^53,
    and stays beyond 2^53 on the same side otherwise. *)
Lemma double_of_Z_spec (z : Z) :
  match double_of_Z z with
  | Some x =>
      (Z.abs z < 2 ^ 53 /\ x = inject_Z z) \/
      (exists y, x = inject_Z y /\ 2 ^ 53 <= y /\ 2 ^ 53 <= z) \/
      (exists y, x = inject_Z y /\ y <= - 2 ^ 53 /\ z <= - 2 ^ 53)
  | None => 2 ^ 53 <= Z.abs z
  end.
Proof.
  unfold double_of_Z.
  destruct (Z.ltb_spec (Z.abs z) (2 ^ 53)) as [Hsmall|Hbig]; [by left|].
  set (a := Z.abs z) in *.
  set (e := Z.log2 a - 52).
  set (m := Z.shiftr a e).
  match goal with
  | |- context [if ?c then m + 1 else m] =>
      set (m' := if c then m + 1 else m)
  end.
  destruct (Z.ltb_spec (m' * 2 ^ e) (2 ^ 1024)) as [_|_]; [|exact Hbig].
  assert (Ha : 0 < a) by lia.
  destruct (Z.log2_spec a Ha) as [Hlog _].
  assert (Hlog53 : 53 <= Z.log2 a).
  { change 53 with (Z.log2 (2 ^ 53)). by apply Z.log2_le_mono. }
  assert (He : 1 <= e) by (subst e; lia).
  assert (Hpow : 0 < 2 ^ e) by (apply Z.pow_pos_nonneg; lia).
  assert (Hm : 2 ^ 52 <= m).
  { subst m. rewrite Z.shiftr_div_pow2 by lia.
    apply Z.div_le_lower_bound; [exact Hpow|].
    rewrite <- Z.pow_add_r by lia.
    replace (e + 52) with (Z.log2 a) by (subst e; lia). exact Hlog. }
  assert (Hm' : m <= m').
  { subst m'. match goal with |- context [if ?c then _ else _] => destruct c end; lia. }
  assert (Hbound : 2 ^ 53 <= m' * 2 ^ e).
  { change (2 ^ 53) with (2 ^ 52 * 2 ^ 1).
    apply Z.mul_le_mono_nonneg; try lia.
    apply Z.pow_le_mono_r; lia. }
  right. destruct (Z.abs_spec z) as [[Hz Habs] | [Hz Habs]]; fold a in Habs.
  - left. exists (m' * 2 ^ e). rewrite Z.sgn_pos by lia.
    rewrite Z.mul_1_l. split; [reflexivity|]. split; lia.
  - right. exists (- (m' * 2 ^ e)). rewrite Z.sgn_neg by lia.
    split; [f_equal; lia|]. split; lia.
Qed.

(** C2, as amended: a request body is accepted only when it supplies each
    of the ten fields under its external name (the literal alias, spaces
    included) or under its internal identifier; the two spellings are
    interchangeable (the body validates to the same record, or fails with
    the same kinds of errors in the same order), the value under the
    external name wins when both are present, and every other key is
    ignored, so no third spelling supplies a field. An error on a value is
    reported under the spelling the body used: an age of 2 fails under
    "Age" when sent as "Age" and under "age" when sent as "age". *)
Theorem body_keys_alias_or_name :
  (forall b data, validate b = inr data ->
     forall name alias, (name, alias) ∈ fields ->
       is_Some (b !! alias) \/ is_Some (b !! name)) /\
  (forall b name alias v, (name, alias) ∈ fields ->
     b !! alias = Some v ->
     kinds_of (validate (<[name := v]> (delete alias b)))
       = kinds_of (validate b)) /\
  (forall b name alias v w, (name, alias) ∈ fields ->
     b !! alias = Some v ->
     kinds_of (validate (<[name := w]> b)) = kinds_of (validate b)) /\
  (forall b key v,
     (forall name alias, (name, alias) ∈ fields -> key <> name /\ key <> alias) ->
     kinds_of (validate (<[key := v]> b)) = kinds_of (validate b)) /\
  validate (<["Age" := JInt 2]> example_body) =
    inl [ {| loc := "Age"; type := greater_than_equal 3;
             input := InValue (JInt 2) |} ] /\
  validate (<["age" := JInt 2]> (delete "Age" example_body)) =
    inl [ {| loc := "age"; type := greater_than_equal 3;
             input := InValue (JInt 2) |} ].
Proof.
  split; [|split; [|split; [|split; [|split]]]].
  - intros b data Hb name alias Hin.
    unfold CustomerData_validate in Hb.
    repeat match type of Hb with
    | _ <&> _ = inr _ =>
        let f := fresh "f" in let a := fresh "a" in
        let Ha := fresh "Ha" in let Hb' := fresh "Hb" in
        apply v_ap_inr in Hb as (f & a & Hb & Ha & Hb');
        apply Field_inr_lookup in Ha
    end.
    apply elem_of_fields in Hin.
    repeat (destruct Hin as [Hin|Hin]); injection Hin as -> ->; assumption.
  - intros b name alias v Hin Hv. apply validate_ext.
    intros name' alias' Hin'.
    destruct (fields_distinct _ _ _ _ Hin Hin')
      as (Hna & [(<- & <-) | (H1 & H2 & H3 & H4)]);
      unfold lookup_key; simpl.
    + rewrite lookup_insert_ne, lookup_delete_eq, lookup_insert_eq by done.
      by rewrite Hv.
    + by rewrite !lookup_insert_ne, !lookup_delete_ne.
  - intros b name alias v w Hin Hv. apply validate_ext.
    intros name' alias' Hin'.
    destruct (fields_distinct _ _ _ _ Hin Hin')
      as (Hna & [(<- & <-) | (H1 & H2 & H3 & H4)]);
      unfold lookup_key; simpl.
    + rewrite lookup_insert_ne by done. by rewrite Hv.
    + by rewrite !lookup_insert_ne.
  - intros b key v Hkey. apply validate_ext.
    intros name alias Hin. destruct (Hkey _ _ Hin) as (Hn & Ha).
    unfold lookup_key. by rewrite !lookup_insert_ne.
  - vm_compute. reflexivity.
  - vm_compute. reflexivity.
Qed.

Lemma int_ge_le_number (lo hi z : Z) :
  int_ge_le str_as_int lo hi (JInt z) =
  if negb (z <=? hi) then inl (less_than_equal hi)
  else if negb (lo <=? z) then inl (greater_than_equal lo)
  else inr z.
Proof. reflexivity. Qed.

(** The range check of an integer field, on the rational scale. *)
Lemma int_ge_le_cases (lo hi z : Z) :
  lo <= hi ->
  ((inject_Z lo <= inject_Z z <= inject_Z hi)%Q ->
     int_ge_le str_as_int lo hi (JInt z) = inr z) /\
  ((inject_Z z < inject_Z lo)%Q ->
     int_ge_le str_as_int lo hi (JInt z) = inl (greater_than_equal lo)) /\
  ((inject_Z hi < inject_Z z)%Q ->
     int_ge_le str_as_int lo hi (JInt z) = inl (less_than_equal hi)).
Proof.
  intros Hlohi. rewrite int_ge_le_number, <- !Zle_Qle, <- !Zlt_Qlt.
  destruct (Z.leb_spec z hi), (Z.leb_spec lo z); simpl;
    repeat split; intros; first [reflexivity | lia].
Qed.

(** The range check of a float field. *)
Lemma float_ge_le_cases (lo hi : Z) (v : json) (q : Q) :
  lo <= hi ->
  validate_float str_as_float v = inr (Finite q) ->
  ((inject_Z lo <= q <= inject_Z hi)%Q ->
     float_ge_le str_as_float float_nan lo hi v = inr (Finite q)) /\
  ((q < inject_Z lo)%Q ->
     float_ge_le str_as_float
         float_nan lo hi v = inl (greater_than_equal lo)) /\
  ((inject_Z hi < q)%Q ->
     float_ge_le str_as_float float_nan lo hi v = inl (less_than_equal hi)).
Proof.
  intros Hlohi Hv. unfold float_ge_le. rewrite Hv.
  rewrite Zle_Qle in Hlohi.
  destruct (Qle_bool q (inject_Z hi)) eqn:Hhi,
           (Qle_bool (inject_Z lo) q) eqn:Hlo; simpl.
  all: try apply Qle_bool_iff in Hhi; try apply Qle_bool_iff in Hlo.
  all: try (apply not_true_iff_false in Hhi; rewrite Qle_bool_iff in Hhi;
            apply Qnot_le_lt in Hhi).
  all: try (apply not_true_iff_false in Hlo; rewrite Qle_bool_iff in Hlo;
            apply Qnot_le_lt in Hlo).
  all: repeat split; intros; try reflexivity; exfalso; lra.
Qed.

Lemma number_for_float (f : NumericField) (v : json) (x : Q) :
  f <> f_age -> number_for f v = Some x ->
  validate_float str_as_float v = inr (Finite x).
Proof.
  intros Hf Hv. destruct v; simpl in Hv; try discriminate.
  - destruct f; try congruence; simpl; by rewrite Hv.
  - destruct f; try congruence; by injection Hv as <-.
Qed.

Lemma number_for_age (v : json) (x : Q) :
  number_for f_age v = Some x -> exists z, v = JInt z /\ x = inject_Z z.
Proof.
  destruct v; simpl; intros Hv; try discriminate.
  injection Hv as <-. by eexists.
Qed.

(** The schema of a numeric field on a number of the field's type. *)
Lemma numeric_schema_number (f : NumericField) (v : json) (x : Q) :
  number_for f v = Some x ->
  let lo := fst (documented_interval f) in
  let hi := snd (documented_interval f) in
  ((inject_Z lo <= x <= inject_Z hi)%Q ->
     numeric_schema str_as_int str_as_float float_nan f v = inr (Finite x)) /\
  ((x < inject_Z lo)%Q ->
     numeric_schema str_as_int str_as_float
         float_nan f v = inl (greater_than_equal lo)) /\
  ((inject_Z hi < x)%Q ->
     numeric_schema str_as_int str_as_float
         float_nan f v = inl (less_than_equal hi)).
Proof.
  intros Hv lo hi. destruct f; subst lo hi; simpl fst; simpl snd.
  2-7: apply float_ge_le_cases;
    [lia | eapply number_for_float; [|exact Hv]; discriminate].
  apply number_for_age in Hv as (z & -> & ->). unfold numeric_schema.
  destruct (int_ge_le_cases 3 110 z ltac:(lia)) as (Hin & Hlo & Hhi).
  repeat split; intros Hx;
    [rewrite (Hin Hx) | rewrite (Hlo Hx) | rewrite (Hhi Hx)]; reflexivity.
Qed.

(** An integer too large for a double, and the infinities, in a float
    field. *)
Lemma numeric_schema_not_finite (f : NumericField) :
  f <> f_age ->
  let lo := fst (documented_interval f) in
  let hi := snd (documented_interval f) in
  (forall z, double_of_Z z = None ->
     numeric_schema str_as_int str_as_float
         float_nan f (JInt z) = inl float_type) /\
  (forall negative,
     numeric_schema str_as_int str_as_float float_nan f (JInfinity negative) =
       inl (if negative then greater_than_equal lo else less_than_equal hi)).
Proof.
  intros Hf lo hi. destruct f; try congruence; subst lo hi; simpl; split.
  all: first [ intros z Hz; unfold float_ge_le; simpl; by rewrite Hz
             | intros []; reflexivity ].
Qed.

(** In a body that validates, a numeric field set to a new value is the
    only thing validation looks at again. *)
Lemma validate_put (f : NumericField) (v : json) (b : gmap string json)
    (data : CustomerData) :
  validate b = inr data ->
  match numeric_schema str_as_int str_as_float float_nan f v with
  | inl e =>
      validate (<[numeric_alias f := v]> b) =
        inl [ {| loc := numeric_alias f; type := e; input := InValue v |} ]
  | inr x =>
      exists data', validate (<[numeric_alias f := v]> b) = inr data' /\
                    numeric_value f data' = x
  end.
Proof.
  intros Hb.
  apply validate_inr in Hb as (H1 & H2 & H3 & H4 & H5 & H6 & H7 & H8 & H9 & H10).
  unfold CustomerData_validate, numeric_schema.
  destruct f; simpl numeric_alias; rewrite Field_insert_alias;
    rewrite ?(Field_insert_ne _ _ _ _ _ H1), ?(Field_insert_ne _ _ _ _ _ H2),
      ?(Field_insert_ne _ _ _ _ _ H3), ?(Field_insert_ne _ _ _ _ _ H4),
      ?(Field_insert_ne _ _ _ _ _ H5), ?(Field_insert_ne _ _ _ _ _ H6),
      ?(Field_insert_ne _ _ _ _ _ H7), ?(Field_insert_ne _ _ _ _ _ H8),
      ?(Field_insert_ne _ _ _ _ _ H9), ?(Field_insert_ne _ _ _ _ _ H10)
      by discriminate.
  1: destruct (int_ge_le str_as_int 3 110 v) as [e|z].
  3: destruct (float_ge_le str_as_float float_nan 1 60 v) as [e|q].
  5: destruct (float_ge_le str_as_float float_nan 1 30 v) as [e|q].
  7: destruct (float_ge_le str_as_float float_nan 0 10 v) as [e|q].
  9: destruct (float_ge_le str_as_float float_nan 0 30 v) as [e|q].
  11: destruct (float_ge_le str_as_float float_nan 100 1000 v) as [e|q].
  13: destruct (float_ge_le str_as_float float_nan 1 30 v) as [e|q].
  all: first [ reflexivity | eexists; split; reflexivity ].
Qed.

(** C4, as amended: in a body that validates, replacing the value of a
    numeric field by a number [x] of the field's type gives a body that
    validates, with [x] stored, when [x] lies in the field's documented
    closed interval (age 3-110, tenure 1-60, usage frequency 1-30, support
    calls 0-10, payment delay 0-30, total spend 100-1000, last interaction
    1-30), both endpoints included; below the interval the body is
    rejected with the single error "greater than or equal" to the lower
    bound, above it with "less than or equal" to the upper bound, reported
    under the field's alias with the value as input. An integer is read
    exactly when it lies in the interval; outside it is rejected as out of
    range on its side, or, in a float field, when it is too large to
    convert to a double, as not a valid number. An infinity in a float
    field is out of range on its side. *)
Theorem numeric_fields_closed_intervals
    (f : NumericField) (b : gmap string json) (data : CustomerData) :
  validate b = inr data ->
  let lo := fst (documented_interval f) in
  let hi := snd (documented_interval f) in
  let put := fun v => validate (<[numeric_alias f := v]> b) in
  let rejected := fun v kind =>
    put v = inl [ {| loc := numeric_alias f; type := kind;
                     input := InValue v |} ] in
  (forall v x, number_for f v = Some x ->
     ((inject_Z lo <= x <= inject_Z hi)%Q ->
        exists data', put v = inr data' /\
                      numeric_value f data' = Finite x) /\
     ((x < inject_Z lo)%Q -> rejected v (greater_than_equal lo)) /\
     ((inject_Z hi < x)%Q -> rejected v (less_than_equal hi))) /\
  (forall z,
     (lo <= z <= hi ->
        exists data', put (JInt z) = inr data' /\
                      numeric_value f data' = Finite (inject_Z z)) /\
     (z < lo ->
        rejected (JInt z) (greater_than_equal lo) \/
        (f <> f_age /\ double_of_Z z = None /\ rejected (JInt z) float_type)) /\
     (hi < z ->
        rejected (JInt z) (less_than_equal hi) \/
        (f <> f_age /\ double_of_Z z = None /\ rejected (JInt z) float_type))) /\
  (forall z, f <> f_age -> double_of_Z z = None ->
     rejected (JInt z) float_type) /\
  (forall negative, f <> f_age ->
     rejected (JInfinity negative)
       (if negative then greater_than_equal lo else less_than_equal hi)).
Proof.
  intros Hb lo hi put rejected.
  assert (Hnumber : forall v x, number_for f v = Some x ->
     ((inject_Z lo <= x <= inject_Z hi)%Q ->
        exists data', put v = inr data' /\
                      numeric_value f data' = Finite x) /\
     ((x < inject_Z lo)%Q -> rejected v (greater_than_equal lo)) /\
     ((inject_Z hi < x)%Q -> rejected v (less_than_equal hi))).
  { intros v x Hv. pose proof (validate_put f v b data Hb) as Hput.
    destruct (numeric_schema_number f v x Hv) as (Hin & Hlo & Hhi).
    repeat split; intros Hx;
      [rewrite (Hin Hx) in Hput | rewrite (Hlo Hx) in Hput
      | rewrite (Hhi Hx) in Hput]; exact Hput. }
  assert (Hoverflow : forall z, f <> f_age -> double_of_Z z = None ->
     rejected (JInt z) float_type).
  { intros z Hf Hz. pose proof (validate_put f (JInt z) b data Hb) as Hput.
    destruct (numeric_schema_not_finite f Hf) as [Hint _].
    by rewrite (Hint z Hz) in Hput. }
  split; [exact Hnumber|]. split; [|split; [exact Hoverflow|]].
  - intros z.
    assert (Hbounds : - 2 ^ 53 < lo /\ lo <= hi /\ hi < 2 ^ 53)
      by (subst lo hi; destruct f; simpl; lia).
    assert (Hage : f = f_age \/ f <> f_age)
      by (destruct f; first [by left | by right]).
    destruct Hage as [Hage|Hf].
    { subst f. destruct (Hnumber (JInt z) (inject_Z z) eq_refl) as (Hin & Hlo & Hhi).
      rewrite <- !Zle_Qle, <- !Zlt_Qlt in *.
      split; [exact Hin|]. split; intros Hz; left; auto. }
    assert (Hfloat : number_for f (JInt z) = double_of_Z z)
      by (destruct f; first [reflexivity | congruence]).
    pose proof (double_of_Z_spec z) as Hspec.
    destruct (double_of_Z z) as [x|] eqn:Hdouble.
    + destruct (Hnumber (JInt z) x Hfloat) as (Hin & Hlo & Hhi).
      destruct Hspec as [[Hsmall ->] | [(y & -> & Hy & Hz) | (y & -> & Hy & Hz)]];
        rewrite <- ?Zle_Qle, <- ?Zlt_Qlt in *.
      * split; [exact Hin|]. split; intros Hz; left; auto.
      * split; [lia|]. split; intros Hz'; [lia|]. left. apply Hhi. lia.
      * split; [lia|]. split; intros Hz'; [|lia]. left. apply Hlo. lia.
    + split; [lia|]. split; intros Hz; right; auto.
  - intros negative Hf.
    pose proof (validate_put f (JInfinity negative) b data Hb) as Hput.
    destruct (numeric_schema_not_finite f Hf) as [_ Hinf].
    by rewrite (Hinf negative) in Hput.
Qed.

(** Where an error of a body comes from: a field that is missing, or the
    value found for a field. *)
Lemma field_errors_elem (b : gmap string json) (e : ValidationError) :
  e ∈ errors_in b ->
  exists name alias, (name, alias) ∈ fields /\
    ((b !! alias = None /\ b !! name = None /\
      e = {| loc := alias; type := missing; input := InBody b |}) \/
     (exists v, input e = InValue v /\
        ((loc e = alias /\ b !! alias = Some v) \/
         (loc e = name /\ b !! alias = None /\ b !! name = Some v)))).
Proof.
  assert (Hone : forall A name alias (schema : json -> ErrorType + A) e,
            e ∈ errors_of (Field b name alias schema) ->
            (b !! alias = None /\ b !! name = None /\
             e = {| loc := alias; type := missing; input := InBody b |}) \/
            (exists v, input e = InValue v /\
               ((loc e = alias /\ b !! alias = Some v) \/
                (loc e = name /\ b !! alias = None /\ b !! name = Some v)))).
  { intros A name alias schema e'.
    destruct (Field_cases b name alias schema)
      as [[a ->] | [(Ha & Hn & ->) | (key & v & kind & Hkey & _ & ->)]]; simpl.
    - by intros ?%elem_of_nil.
    - intros ->%list_elem_of_singleton. by left.
    - intros ->%list_elem_of_singleton. right. exists v. simpl.
      split; [reflexivity|]. destruct Hkey as [[-> ?] | (-> & ? & ?)]; auto. }
  unfold field_errors. rewrite !elem_of_app.
  intros [H|[H|[H|[H|[H|[H|[H|[H|[H|H]]]]]]]]]; apply Hone in H;
    eexists _, _; (split; [|exact H]);
    unfold fields; rewrite !elem_of_cons; tauto.
Qed.

(** A field that holds an infinity fails, as does a field other than a
    float field that holds [nan], and the error quotes that value. *)
Lemma field_not_finite_fails (b : gmap string json) (name alias key : string)
    (v : json) :
  (name, alias) ∈ fields ->
  lookup_key model_config b alias name = Some (key, v) ->
  v = JInfinity false \/ v = JInfinity true \/
  (v = JNaN /\
   alias ∈ ["Age"; "Gender"; "Subscription Type"; "Contract Length"]) ->
  exists e, e ∈ errors_in b /\ input e = InValue v.
Proof.
  intros Hin Hkey Hv.
  assert (Hfails : forall A (schema : json -> ErrorType + A),
            (exists kind, schema v = inl kind) ->
            exists e, e ∈ errors_of (Field b name alias schema) /\
                      input e = InValue v).
  { intros A schema [kind Hkind]. unfold Field. rewrite Hkey, Hkind.
    eexists. split; [apply list_elem_of_singleton; reflexivity | reflexivity]. }
  apply elem_of_fields in Hin. unfold field_errors.
  repeat (destruct Hin as [Hin|Hin]); injection Hin as -> ->;
    destruct Hv as [-> | [-> | [-> Hnan]]];
    try (exfalso; revert Hnan; rewrite !elem_of_cons, elem_of_nil;
         intros Hnan; repeat (destruct Hnan as [Hnan|Hnan]; try discriminate);
         done);
    (edestruct Hfails as (e & He & Hinput);
     [|exists e; split; [rewrite !elem_of_app; eauto 12 | exact Hinput]]);
    eexists; reflexivity.
Qed.

(** X3: a body is rejected exactly with the errors of its failing fields,
    all of them, and accepted exactly when no field fails; the errors come
    in declaration order of their fields, at most one per field; a missing
    field is reported under its alias and quotes the body, any other error
    quotes the value that failed and is reported under the key that value
    was found under, the alias or else the internal name. *)
Theorem validation_reports_every_failing_field (b : gmap string json) :
  (forall errs, validate b = inl errs <-> errs = errors_in b /\ errs <> []) /\
  ((exists data, validate b = inr data) <-> errors_in b = []) /\
  sublist (List.map (fun e => alias_of (loc e)) (errors_in b))
    (List.map snd fields) /\
  (forall e, e ∈ errors_in b ->
     exists name alias, (name, alias) ∈ fields /\
       ((b !! alias = None /\ b !! name = None /\
         e = {| loc := alias; type := missing; input := InBody b |}) \/
        (exists v, input e = InValue v /\
           ((loc e = alias /\ b !! alias = Some v) \/
            (loc e = name /\ b !! alias = None /\ b !! name = Some v))))).
Proof.
  pose proof (validate_errors b) as Herrors.
  pose proof (validate_not_empty b) as Hnonempty.
  split; [exact (validate_inl b)|]. split; [|split].
  - destruct (validate b) as [errs'|data]; simpl in Herrors.
    + split; [by intros [data [=]]|].
      intros Hnil. rewrite Hnil in Herrors. congruence.
    + split; [done | by eexists].
  - assert (Hone : forall A name alias (schema : json -> ErrorType + A),
              alias_of alias = alias -> alias_of name = alias ->
              sublist (List.map (fun e => alias_of (loc e))
                         (errors_of (Field b name alias schema))) [alias]).
    { intros A name alias schema Halias Hname.
      destruct (Field_cases b name alias schema)
        as [[a ->] | [(_ & _ & ->) | (key & v & e & Hkey & _ & ->)]]; simpl.
      - apply sublist_nil_l.
      - by rewrite Halias.
      - destruct Hkey as [[-> _] | (-> & _)]; by rewrite ?Halias, ?Hname. }
    unfold field_errors. rewrite !map_app.
    change (List.map snd fields) with
      (["Age"] ++ ["Gender"] ++ ["Tenure"] ++ ["Usage Frequency"]
       ++ ["Support Calls"] ++ ["Payment Delay"] ++ ["Subscription Type"]
       ++ ["Contract Length"] ++ ["Total Spend"] ++ ["Last Interaction"])%list.
    repeat (apply sublist_app; [by apply Hone|]). by apply Hone.
  - exact (field_errors_elem b).
Qed.

(** X4: every one of the ten fields is required: a body that has neither
    the alias nor the name of a field is rejected, with an error "missing"
    under the alias that quotes the body, whatever else it holds. *)
Theorem every_field_is_required (b : gmap string json) (name alias : string) :
  (name, alias) ∈ fields ->
  b !! alias = None -> b !! name = None ->
  exists errs, validate b = inl errs /\
    {| loc := alias; type := missing; input := InBody b |} ∈ errs.
Proof.
  intros Hin Ha Hn.
  assert (Hmissing :
    {| loc := alias; type := missing; input := InBody b |} ∈ errors_in b).
  { apply elem_of_fields in Hin. unfold field_errors.
    repeat (destruct Hin as [Hin|Hin]); injection Hin as -> ->;
      rewrite (Field_missing b _ _ _ Ha Hn); simpl;
      rewrite ?elem_of_app, ?elem_of_cons; tauto. }
  exists (errors_in b). split; [|exact Hmissing].
  pose proof (validate_errors b) as Herrors.
  destruct (validate b) as [errs'|data]; simpl in Herrors.
  - by rewrite Herrors.
  - rewrite <- Herrors in Hmissing. by apply elem_of_nil in Hmissing.
Qed.

Lemma int_ge_le_inr (lo hi : Z) (v : json) (z : Z) :
  int_ge_le str_as_int lo hi v = inr z -> lo <= z <= hi.
Proof.
  unfold int_ge_le. destruct (validate_int _ v) as [e|z']; [discriminate|].
  destruct (Z.leb_spec z' hi), (Z.leb_spec lo z'); simpl; intros [= <-]; lia.
Qed.

Lemma float_ge_le_inr (lo hi : Z) (v : json) (f : pyfloat) :
  float_ge_le str_as_float float_nan lo hi v = inr f ->
  within_bounds float_nan lo hi f.
Proof.
  unfold float_ge_le.
  destruct (validate_float _ v) as [e|[q'|[]|]]; try discriminate.
  - destruct (Qle_bool q' (inject_Z hi)) eqn:Hhi,
             (Qle_bool (inject_Z lo) q') eqn:Hlo; simpl; intros [= <-].
    apply Qle_bool_iff in Hhi, Hlo. by split.
  - destruct (float_nan lo hi) eqn:Hnan; intros [= <-]. exact Hnan.
Qed.

Lemma str_with_inr (validator : string -> ValueError + string)
    (v : json) (cleaned : string) :
  str_with validator v = inr cleaned ->
  exists value, v = JStr value /\ validator value = inr cleaned.
Proof.
  unfold str_with. destruct v; simpl; try discriminate.
  destruct (validator s) eqn:Hv; [discriminate|].
  intros [= <-]. by eexists.
Qed.

Lemma str_with_allowed (validator : string -> ValueError + string)
    (allowed : list string) (v : json) (cleaned : string) :
  trims_titles_then_checks unicode validator allowed ->
  str_with validator v = inr cleaned -> cleaned ∈ allowed.
Proof.
  intros Hcontract Hv. apply str_with_inr in Hv as (value & _ & Hv).
  by destruct (proj1 (contract_inr unicode _ allowed _ _ Hcontract) Hv).
Qed.

(** X5: a record that validation returns satisfies every constraint of
    the schema: each number lies in the closed interval of its field and
    each enum field holds one of its allowed values, in its canonical
    spelling. *)
Theorem validated_record_satisfies_constraints
    (b : gmap string json) (data : CustomerData) :
  validate b = inr data -> satisfies_constraints float_nan data.
Proof.
  intros Hb.
  apply validate_inr in Hb as (H1 & H2 & H3 & H4 & H5 & H6 & H7 & H8 & H9 & H10).
  apply Field_inr_schema in H1 as [v1 H1], H2 as [v2 H2], H3 as [v3 H3],
    H4 as [v4 H4], H5 as [v5 H5], H6 as [v6 H6], H7 as [v7 H7],
    H8 as [v8 H8], H9 as [v9 H9], H10 as [v10 H10].
  unfold satisfies_constraints. repeat split.
  all: first
    [ by apply (int_ge_le_inr _ _ _ _ H1)
    | by apply (str_with_allowed _ _ _ _ (gender_checked unicode) H2)
    | by apply (float_ge_le_inr _ _ _ _ H3)
    | by apply (float_ge_le_inr _ _ _ _ H4)
    | by apply (float_ge_le_inr _ _ _ _ H5)
    | by apply (float_ge_le_inr _ _ _ _ H6)
    | by apply (str_with_allowed _ _ _ _ (subscription_checked unicode) H7)
    | by apply (str_with_allowed _ _ _ _ (contract_checked unicode) H8)
    | by apply (float_ge_le_inr _ _ _ _ H9)
    | by apply (float_ge_le_inr _ _ _ _ H10) ].
Qed.

Lemma float_ge_le_in_range (lo hi : Z) (q : Q) :
  (inject_Z lo <= q <= inject_Z hi)%Q ->
  float_ge_le str_as_float float_nan lo hi (JFloat q) = inr (Finite q).
Proof.
  intros [Hlo Hhi]. unfold float_ge_le. simpl.
  apply Qle_bool_iff in Hlo, Hhi. by rewrite Hlo, Hhi.
Qed.

(** A float within the bounds of a field, sent as it is dumped, is read
    back. *)
Lemma float_ge_le_within (lo hi : Z) (f : pyfloat) :
  within_bounds float_nan lo hi f ->
  float_ge_le str_as_float float_nan lo hi (json_of_PyVal (PFloat f)) = inr f.
Proof.
  destruct f as [q|negative|]; simpl.
  - apply float_ge_le_in_range.
  - contradiction.
  - intros Hnan. unfold float_ge_le. simpl. by rewrite Hnan.
Qed.

Lemma int_ge_le_in_range (lo hi z : Z) :
  lo <= z <= hi -> int_ge_le str_as_int lo hi (JInt z) = inr z.
Proof.
  intros [Hlo Hhi]. unfold int_ge_le. simpl.
  apply Z.leb_le in Hlo, Hhi. by rewrite Hlo, Hhi.
Qed.

Lemma str_with_clean (validator : string -> ValueError + string)
    (allowed : list string) (c : string) :
  trims_titles_then_checks unicode validator allowed ->
  (forall c, c ∈ allowed ->
     PyStr.strip unicode c = c /\ PyStr.title unicode c = c) ->
  c ∈ allowed -> str_with validator (JStr c) = inr c.
Proof.
  intros Hcontract Hfixed Hin. unfold str_with. simpl.
  assert (Hv : validator c = inr c).
  { apply (contract_inr unicode _ allowed _ _ Hcontract).
    destruct (Hfixed _ Hin) as [-> ->]. by split. }
  by rewrite Hv.
Qed.

(** X6: a record that satisfies the constraints, dumped by alias and read
    back as a request body, validates to itself. *)
Theorem dumped_record_validates_to_itself (data : CustomerData) :
  satisfies_constraints float_nan data ->
  validate (body_of_row (model_dump_by_alias data)) = inr data.
Proof.
  intros (H1 & H2 & H3 & H4 & H5 & H6 & H7 & H8 & H9 & H10).
  apply validate_inr. repeat split.
  - apply (Field_lookup_alias _ _ _ _ (JInt (age data))); [reflexivity|].
    by apply int_ge_le_in_range.
  - apply (Field_lookup_alias _ _ _ _ (JStr (gender data))); [reflexivity|].
    by apply (str_with_clean _ _ _ (gender_checked unicode)
                (strip_title_fixed_gender unicode)).
  - apply (Field_lookup_alias _ _ _ _ (json_of_PyVal (PFloat (tenure data)))); [reflexivity|].
    by apply float_ge_le_within.
  - apply (Field_lookup_alias _ _ _ _ (json_of_PyVal (PFloat (usage_frequency data))));
      [reflexivity|]. by apply float_ge_le_within.
  - apply (Field_lookup_alias _ _ _ _ (json_of_PyVal (PFloat (support_calls data))));
      [reflexivity|]. by apply float_ge_le_within.
  - apply (Field_lookup_alias _ _ _ _ (json_of_PyVal (PFloat (payment_delay data))));
      [reflexivity|]. by apply float_ge_le_within.
  - apply (Field_lookup_alias _ _ _ _ (JStr (subscription_type data)));
      [reflexivity|].
    by apply (str_with_clean _ _ _ (subscription_checked unicode)
                (strip_title_fixed_subscription unicode)).
  - apply (Field_lookup_alias _ _ _ _ (JStr (contract_length data)));
      [reflexivity|].
    by apply (str_with_clean _ _ _ (contract_checked unicode)
                (strip_title_fixed_contract unicode)).
  - apply (Field_lookup_alias _ _ _ _ (json_of_PyVal (PFloat (total_spend data))));
      [reflexivity|]. by apply float_ge_le_within.
  - apply (Field_lookup_alias _ _ _ _ (json_of_PyVal (PFloat (last_interaction data))));
      [reflexivity|]. by apply float_ge_le_within.
Qed.

End SchemaFacts.

(** ** The schema at concrete inputs *)

Lemma example_body_validates :
  CustomerData_validate plain_unicode no_str_as_int no_str_as_float
      nan_passes example_body
    = inr example_data.
Proof. vm_compute. reflexivity. Qed.

(** C2 refuted as stated: the body keyed by the internal identifiers holds
    none of the external names, "Usage Frequency" among them, and is
    accepted whatever the string parsers and the Unicode database are. *)
Lemma internal_identifiers_accepted :
  example_body_by_name !! "Usage Frequency" = None /\
  example_body_by_name !! "usage_frequency" = Some (JFloat (31 # 2)) /\
  (forall name alias, (name, alias) ∈ fields ->
     example_body_by_name !! alias = None) /\
  (forall unicode str_as_int str_as_float float_nan,
     CustomerData_validate unicode str_as_int str_as_float
         float_nan example_body_by_name
       = inr example_data).
Proof.
  split; [vm_compute; reflexivity|]. split; [vm_compute; reflexivity|]. split.
  - intros name alias Hin. apply elem_of_fields in Hin.
    repeat (destruct Hin as [Hin|Hin]); injection Hin as -> ->;
      vm_compute; reflexivity.
  - intros unicode si sf fn. vm_compute. reflexivity.
Qed.

(** The example body with "Usage Frequency" renamed to "usage_frequency"
    validates as the example body does. *)
Lemma body_keys_alias_or_name_witness :
  kinds_of (CustomerData_validate plain_unicode no_str_as_int no_str_as_float
      nan_passes
              (<["usage_frequency" := JFloat (31 # 2)]>
                 (delete "Usage Frequency" example_body)))
  = kinds_of (CustomerData_validate plain_unicode no_str_as_int no_str_as_float
      nan_passes
                example_body).
Proof.
  apply (proj1 (proj2 (body_keys_alias_or_name plain_unicode
                         no_str_as_int no_str_as_float nan_passes))).
  - unfold fields. rewrite !elem_of_cons. tauto.
  - vm_compute. reflexivity.
Defined.

(** Ages 3 and 110 are accepted, ages 2 and 111 are rejected. *)
Lemma numeric_fields_closed_intervals_witness :
  (exists data',
     CustomerData_validate plain_unicode no_str_as_int no_str_as_float
         nan_passes
       (<["Age" := JInt 3]> example_body) = inr data' /\
     numeric_value f_age data' = Finite (inject_Z 3)) /\
  (exists data',
     CustomerData_validate plain_unicode no_str_as_int no_str_as_float
         nan_passes
       (<["Age" := JInt 110]> example_body) = inr data' /\
     numeric_value f_age data' = Finite (inject_Z 110)) /\
  CustomerData_validate plain_unicode no_str_as_int no_str_as_float nan_passes
    (<["Age" := JInt 2]> example_body)
    = inl [ {| loc := "Age"; type := greater_than_equal 3;
               input := InValue (JInt 2) |} ] /\
  CustomerData_validate plain_unicode no_str_as_int no_str_as_float nan_passes
    (<["Age" := JInt 111]> example_body)
    = inl [ {| loc := "Age"; type := less_than_equal 110;
               input := InValue (JInt 111) |} ].
Proof.
  pose proof (fun z =>
    proj1 (numeric_fields_closed_intervals plain_unicode
             no_str_as_int no_str_as_float nan_passes
             f_age example_body example_data example_body_validates)
      (JInt z) (inject_Z z) eq_refl) as H.
  simpl in H.
  split; [|split; [|split]].
  - apply (H 3). unfold Qle. simpl. lia.
  - apply (H 110). unfold Qle. simpl. lia.
  - apply (H 2). unfold Qlt. simpl. lia.
  - apply (H 111). unfold Qlt. simpl. lia.
Defined.

(** C4 refuted as stated: a tenure of 10^400, an integer far above the
    interval 1-60, is rejected, but not as out of range: it does not
    convert to a float, and the error is that the input is not a valid
    number. *)
Lemma oversized_integer_is_not_out_of_range :
  CustomerData_validate plain_unicode no_str_as_int no_str_as_float
      nan_passes example_body
    = inr example_data /\
  60 < 10 ^ 400 /\
  double_of_Z (10 ^ 400) = None /\
  CustomerData_validate plain_unicode no_str_as_int no_str_as_float nan_passes
    (<["Tenure" := JInt (10 ^ 400)]> example_body)
    = inl [ {| loc := "Tenure"; type := float_type;
               input := InValue (JInt (10 ^ 400)) |} ] /\
  CustomerData_validate plain_unicode no_str_as_int no_str_as_float nan_passes
    (<["Tenure" := JInt 61]> example_body)
    = inl [ {| loc := "Tenure"; type := less_than_equal 60;
               input := InValue (JInt 61) |} ] /\
  double_of_Z (2 ^ 1024 - 2 ^ 970) = None /\
  double_of_Z (2 ^ 1024 - 2 ^ 970 - 1) = Some (inject_Z (2 ^ 1024 - 2 ^ 971)).
Proof.
  split; [exact example_body_validates|].
  split; [by vm_compute|].
  repeat split; vm_compute; reflexivity.
Qed.

Lemma example_data_satisfies_constraints :
  satisfies_constraints nan_passes example_data.
Proof.
  unfold satisfies_constraints, example_data. simpl.
  repeat split; try lia; try (unfold Qle; simpl; lia);
    rewrite !elem_of_cons; tauto.
Qed.

(** The example body validates to a record within all bounds. *)
Lemma validated_record_satisfies_constraints_witness :
  satisfies_constraints nan_passes example_data.
Proof.
  exact (validated_record_satisfies_constraints plain_unicode
           no_str_as_int no_str_as_float nan_passes
           example_body example_data example_body_validates).
Defined.

(** The example record, dumped and posted back, validates to itself. *)
Lemma dumped_record_validates_to_itself_witness :
  CustomerData_validate plain_unicode no_str_as_int no_str_as_float nan_passes
    (body_of_row (model_dump_by_alias example_data)) = inr example_data.
Proof.
  exact (dumped_record_validates_to_itself plain_unicode
           no_str_as_int no_str_as_float nan_passes
           example_data example_data_satisfies_constraints).
Defined.

(** The example body without its tenure is rejected for the missing
    "Tenure". *)
Lemma every_field_is_required_witness :
  exists errs,
    CustomerData_validate plain_unicode no_str_as_int no_str_as_float nan_passes
      (delete "Tenure" example_body) = inl errs /\
    {| loc := "Tenure"; type := missing;
       input := InBody (delete "Tenure" example_body) |} ∈ errs.
Proof.
  apply (every_field_is_required plain_unicode no_str_as_int no_str_as_float
      nan_passes
           (delete "Tenure" example_body) "tenure" "Tenure").
  - unfold fields. rewrite !elem_of_cons. tauto.
  - vm_compute. reflexivity.
  - vm_compute. reflexivity.
Defined.

(** The conversion of integers to floats at its edges: exact below 2^53,
    to the nearest double with ties to the even significand above, and
    failing from 2^1024 - 2^970 on, the first integer that rounds to
    2^1024. *)
Lemma double_of_Z_edges :
  double_of_Z 5 = Some (inject_Z 5) /\
  double_of_Z (- (2 ^ 53 - 1)) = Some (inject_Z (- (2 ^ 53 - 1))) /\
  double_of_Z (2 ^ 53 + 1) = Some (inject_Z (2 ^ 53)) /\
  double_of_Z (2 ^ 53 + 2) = Some (inject_Z (2 ^ 53 + 2)) /\
  double_of_Z (2 ^ 53 + 3) = Some (inject_Z (2 ^ 53 + 4)) /\
  double_of_Z (2 ^ 1024 - 2 ^ 970 - 1)
    = Some (inject_Z (2 ^ 1024 - 2 ^ 971)) /\
  double_of_Z (2 ^ 1024 - 2 ^ 970) = None /\
  double_of_Z (- (2 ^ 1024 - 2 ^ 970)) = None /\
  double_of_Z (- 10 ^ 400) = None.
Proof. repeat split; vm_compute; reflexivity. Qed.

(** The lax types of the schema at their edges. *)
Lemma lax_types_at_edges :
  validate_int no_str_as_int (JInt 20) = inr 20 /\
  validate_int no_str_as_int (JBool true) = inr 1 /\
  validate_int no_str_as_int (JFloat (40 # 2)) = inr 20 /\
  validate_int no_str_as_int (JFloat (41 # 2)) = inl int_from_float /\
  validate_int no_str_as_int (JFloat (inject_Z (2 ^ 63)))
    = inl int_parsing_size /\
  validate_int no_str_as_int (JFloat (inject_Z (- 2 ^ 63)))
    = inl int_parsing_size /\
  validate_int no_str_as_int JNaN = inl finite_number /\
  validate_int no_str_as_int (JInfinity true) = inl finite_number /\
  validate_int no_str_as_int JNull = inl int_type /\
  validate_float no_str_as_float (JInt 5) = inr (Finite (inject_Z 5)) /\
  validate_float no_str_as_float (JInt (10 ^ 400)) = inl float_type /\
  validate_float no_str_as_float (JBool false) = inr (Finite (inject_Z 0)) /\
  validate_float no_str_as_float JNaN = inr NaN /\
  validate_float no_str_as_float JNull = inl float_type /\
  validate_str (JStr "Male") = inr "Male" /\
  validate_str (JInt 1) = inl string_type /\
  float_ge_le no_str_as_float nan_passes 1 60 (JInfinity false)
    = inl (less_than_equal 60) /\
  float_ge_le no_str_as_float nan_passes 1 60 (JInfinity true)
    = inl (greater_than_equal 1) /\
  float_ge_le no_str_as_float nan_passes 1 60 (JFloat 60)
    = inr (Finite 60) /\
  float_ge_le no_str_as_float nan_passes 1 60 (JFloat (601 # 10))
    = inl (less_than_equal 60) /\
  float_ge_le no_str_as_float nan_passes 1 60 (JFloat (9 # 10))
    = inl (greater_than_equal 1) /\
  int_ge_le no_str_as_int 3 110 (JFloat (inject_Z 110)) = inr 110 /\
  int_ge_le no_str_as_int 3 110 (JFloat (inject_Z 111))
    = inl (less_than_equal 110).
Proof. repeat split; vm_compute; reflexivity. Qed.

(** ** Runs of a request *)

Section RequestRuns.

Variable Credentials : Type.
Variable depends_verify_token : option Credentials -> HTTPException + string.
Variable unicode : PyStr.Unicode.
Variable str_as_int : string -> ErrorType + Z.
Variable str_as_float : string -> ErrorType + pyfloat.
Variable float_nan : Z -> Z -> option ErrorType.
Variable Frame : Type.
Variable DataFrame : list (list (string * PyVal)) -> PyException + Frame.
Variable model_predict : Frame -> PyException + list Label.

Abbreviation run_request :=
  (post_predict Credentials depends_verify_token unicode
     str_as_int str_as_float float_nan
     Frame DataFrame model_predict).
Abbreviation validated :=
  (validate_body unicode str_as_int str_as_float float_nan).

(** A body that does not decode ends the request before anything runs. *)
Lemma undecodable_body (request : Request Credentials) :
  body request = InvalidJSON ->
  run_request request = ([], inl (RequestValidationError [json_decode_error])).
Proof. intros Hbody. unfold post_predict. by rewrite Hbody. Qed.

(** A request the dependency refuses ends there. *)
Lemma refused_by_dependency (request : Request Credentials) (err : HTTPException) :
  body request <> InvalidJSON ->
  depends_verify_token (authorization request) = inl err ->
  run_request request = ([EvVerifyToken], inl (HTTPError err)).
Proof.
  intros Hbody Hauth. unfold post_predict.
  destruct (body request); [done|..]; unfold call, bind; by rewrite Hauth.
Qed.

(** A request whose body does not validate ends after the validation. *)
Lemma rejected_by_validation (request : Request Credentials) (user : string)
    (errors : list ValidationError) :
  body request <> InvalidJSON ->
  depends_verify_token (authorization request) = inr user ->
  validated (body request) = inl errors ->
  run_request request =
    ([EvVerifyToken; EvValidateBody], inl (RequestValidationError errors)).
Proof.
  intros Hdecodes Hauth Hbody. unfold post_predict.
  destruct (body request) eqn:Hrequest; [done|..];
    unfold call, bind; rewrite Hauth; cbn [map_failure]; cbv beta iota;
    by rewrite Hbody.
Qed.

(** A request that passes both runs the handler. *)
Lemma handled (request : Request Credentials) (user : string)
    (data : CustomerData) :
  depends_verify_token (authorization request) = inr user ->
  validated (body request) = inr data ->
  run_request request =
    (EvVerifyToken :: EvValidateBody
       :: events (predict Frame DataFrame model_predict data user),
     map_failure HTTPError
       (outcome (predict Frame DataFrame model_predict data user))).
Proof.
  intros Hauth Hbody. unfold post_predict.
  destruct (body request) eqn:Hrequest; [discriminate Hbody|..];
    unfold call, bind; rewrite Hauth; cbn [map_failure]; cbv beta iota;
    rewrite Hbody; cbn [map_failure]; cbv beta iota;
    by destruct (predict Frame DataFrame model_predict data user).
Qed.

(** Only an object validates. *)
Lemma validated_inr (body : RequestBody) (data : CustomerData) :
  validated body = inr data <->
  exists b, body = JSONObject b /\
            CustomerData_validate unicode str_as_int str_as_float
                float_nan b = inr data.
Proof.
  split.
  - destruct body as [|b|v]; [discriminate|by exists b|by destruct v].
  - by intros (b & -> & Hb).
Qed.

End RequestRuns.

(** ** The handler *)

(** [label == 1] holds of the labels that equal one and of no other. *)
Lemma py_eq_1_spec (label : Label) : py_eq_1 label = true <-> equals_one label.
Proof.
  destruct label as [z|q|b|s|]; simpl.
  - apply Z.eqb_eq.
  - apply Qeq_bool_iff.
  - reflexivity.
  - split; [discriminate | contradiction].
  - split; [discriminate | contradiction].
Qed.

Section PredictFacts.

Variable Frame : Type.
Variable DataFrame : list (list (string * PyVal)) -> PyException + Frame.
Variable model_predict : Frame -> PyException + list Label.

Abbreviation run_predict := (predict Frame DataFrame model_predict).

(** The run of [predict] once the frame is built and the model has
    answered. *)
Lemma predict_returns (data : CustomerData) (user : string)
    (frame : Frame) (label : Label) (rest : list Label) :
  DataFrame [model_dump_by_alias data] = inr frame ->
  model_predict frame = inr (label :: rest) ->
  run_predict data user =
    ([EvPrint user; EvDataFrame; EvModelPredict],
     inr {| prediction := if py_eq_1 label then "Churn" else "No Churn";
            risk_level := if py_eq_1 label then "Critical" else "Safe" |}).
Proof.
  intros Hframe Hmodel. unfold predict, call, bind, try_except, ret.
  rewrite Hframe. simpl. rewrite Hmodel. reflexivity.
Qed.

(** C1: for every validated record, once the single-row frame is built,
    [predict] answers the model's output code 1 with
    [{prediction: "Churn", risk_level: "Critical"}] and the output code 0
    with [{prediction: "No Churn", risk_level: "Safe"}]. *)
Theorem predict_maps_output_code (data : CustomerData) (user : string)
    (frame : Frame) (rest : list Label) :
  DataFrame [model_dump_by_alias data] = inr frame ->
  (model_predict frame = inr (LInt 1 :: rest) ->
     outcome (run_predict data user) =
       inr {| prediction := "Churn"; risk_level := "Critical" |}) /\
  (model_predict frame = inr (LInt 0 :: rest) ->
     outcome (run_predict data user) =
       inr {| prediction := "No Churn"; risk_level := "Safe" |}).
Proof.
  intros Hframe. split; intros Hmodel;
    by rewrite (predict_returns _ _ _ _ _ Hframe Hmodel).
Qed.

(** C10: whatever label the model returns for the row, [predict] returns a
    result whose prediction is "Churn" exactly when the label equals 1 and
    "No Churn" otherwise, and whose risk level is "Critical" exactly when
    the prediction is "Churn" and "Safe" otherwise. The labels that equal
    1 are the integer 1, a float of value 1 and [True]; every other
    integer (not only 0), every other float, [False], a float that is not
    finite and every string give the no-churn, safe result. *)
Theorem prediction_and_risk_level_agree (data : CustomerData) (user : string)
    (frame : Frame) (label : Label) (rest : list Label) :
  DataFrame [model_dump_by_alias data] = inr frame ->
  model_predict frame = inr (label :: rest) ->
  exists result,
    outcome (run_predict data user) = inr result /\
    (prediction result = "Churn" <-> equals_one label) /\
    (prediction result = "No Churn" <-> ~ equals_one label) /\
    (risk_level result = "Critical" <-> prediction result = "Churn") /\
    (risk_level result = "Safe" <-> prediction result <> "Churn") /\
    (label = LInt 1 \/ label = LBool true \/
     (exists q, label = LFloat q /\ (q == 1)%Q) ->
       result = {| prediction := "Churn"; risk_level := "Critical" |}) /\
    (forall z, label = LInt z -> z <> 1 ->
       result = {| prediction := "No Churn"; risk_level := "Safe" |}) /\
    (forall q, label = LFloat q -> ~ (q == 1)%Q ->
       result = {| prediction := "No Churn"; risk_level := "Safe" |}) /\
    (label = LBool false \/ label = LNotFinite \/ (exists s, label = LStr s) ->
       result = {| prediction := "No Churn"; risk_level := "Safe" |}).
Proof.
  intros Hframe Hmodel. eexists. split.
  - by rewrite (predict_returns _ _ _ _ _ Hframe Hmodel).
  - pose proof (py_eq_1_spec label) as Hspec. simpl.
    assert (Hyes : equals_one label -> py_eq_1 label = true) by apply Hspec.
    assert (Hno : ~ equals_one label -> py_eq_1 label = false).
    { intros Hne. destruct (py_eq_1 label); [|reflexivity].
      exfalso. by apply Hne, Hspec. }
    split; [|split; [|split; [|split; [|split; [|split; [|split]]]]]].
    + rewrite <- Hspec. destruct (py_eq_1 label); split; congruence.
    + rewrite <- Hspec. destruct (py_eq_1 label); split; congruence.
    + destruct (py_eq_1 label); split; congruence.
    + destruct (py_eq_1 label); split; congruence.
    + intros [-> | [-> | (q & -> & Hq)]]; rewrite Hyes; done.
    + intros z -> Hz. by rewrite Hno.
    + intros q -> Hq. by rewrite Hno.
    + intros [-> | [-> | (s & ->)]]; rewrite Hno; simpl; auto.
Qed.

(** C6: when building the single-row frame raises, or the model call
    raises, or indexing the model's answer raises, [predict] raises
    [HTTPException] with status 500 and the exception's message as detail:
    the exception is not swallowed into a result, the model is called at
    most once, and the caller of the endpoint receives status 500 with
    that message. *)
Theorem exceptions_in_predict_surface_as_500 (data : CustomerData)
    (user : string) (err : PyException) :
  (DataFrame [model_dump_by_alias data] = inl err \/
   exists frame, DataFrame [model_dump_by_alias data] = inr frame /\
     (model_predict frame = inl err \/
      model_predict frame = inr [] /\ getitem_0 [] = inl err)) ->
  outcome (run_predict data user) =
    inl {| status_code := 500; detail := exc_str err |} /\
  (model_calls (events (run_predict data user)) <= 1)%nat /\
  (forall (Credentials : Type)
          (depends_verify_token : option Credentials -> HTTPException + string)
          (unicode : PyStr.Unicode)
          (str_as_int : string -> ErrorType + Z)
          (str_as_float : string -> ErrorType + pyfloat)
          (float_nan : Z -> Z -> option ErrorType)
          (request : Request Credentials),
     depends_verify_token (authorization request) = inr user ->
     validate_body unicode str_as_int str_as_float
         float_nan (body request) = inr data ->
     predict_response Credentials depends_verify_token unicode
       str_as_int str_as_float float_nan Frame DataFrame model_predict request =
       {| status := 500; content := DetailJSON (exc_str err) |}).
Proof.
  intros Hraise.
  assert (Hrun : exists log, run_predict data user =
            (log, inl {| status_code := 500; detail := exc_str err |}) /\
            (model_calls log <= 1)%nat).
  { unfold predict, call, bind, try_except, raise.
    destruct Hraise as [Hframe | (frame & Hframe & [Hmodel | [Hmodel Hitem]])];
      rewrite Hframe; simpl; [|rewrite Hmodel; simpl..].
    - eexists. split; [reflexivity|]. unfold model_calls. simpl. lia.
    - eexists. split; [reflexivity|]. unfold model_calls. simpl. lia.
    - simpl in Hitem. injection Hitem as <-.
      eexists. split; [reflexivity|]. unfold model_calls. simpl. lia. }
  destruct Hrun as (log & Hrun & Hcalls).
  split; [by rewrite Hrun|]. split; [by rewrite Hrun|].
  intros Credentials dep unicode si sf fn request Hauth Hbody.
  unfold predict_response.
  rewrite (handled _ _ _ _ _ _ _ _ _ _ _ _ Hauth Hbody), Hrun. reflexivity.
Qed.

End PredictFacts.

(** The example record under a model that answers 1, then 0. *)
Lemma predict_maps_output_code_witness :
  outcome (predict _ rows_frame (constant_model (LInt 1)) example_data "alice")
    = inr {| prediction := "Churn"; risk_level := "Critical" |} /\
  outcome (predict _ rows_frame (constant_model (LInt 0)) example_data "alice")
    = inr {| prediction := "No Churn"; risk_level := "Safe" |}.
Proof.
  split.
  - apply (proj1 (predict_maps_output_code _ rows_frame
                    (constant_model (LInt 1)) example_data "alice"
                    [model_dump_by_alias example_data] [] eq_refl)).
    reflexivity.
  - apply (proj2 (predict_maps_output_code _ rows_frame
                    (constant_model (LInt 0)) example_data "alice"
                    [model_dump_by_alias example_data] [] eq_refl)).
    reflexivity.
Defined.

(** A model that answers 2 gives the no-churn, safe result. *)
Lemma prediction_and_risk_level_agree_witness :
  exists result,
    outcome (predict _ rows_frame (constant_model (LInt 2)) example_data "alice")
      = inr result /\
    result = {| prediction := "No Churn"; risk_level := "Safe" |}.
Proof.
  destruct (prediction_and_risk_level_agree _ rows_frame
              (constant_model (LInt 2)) example_data "alice"
              [model_dump_by_alias example_data] (LInt 2) [] eq_refl eq_refl)
    as (result & Hrun & _ & _ & _ & _ & _ & Hint & _).
  exists result. split; [exact Hrun|].
  apply (Hint 2); [reflexivity | lia].
Defined.

(** A model that raises "model exploded": the handler raises 500 with
    that message, and so answers the endpoint. *)
Lemma exceptions_in_predict_surface_as_500_witness :
  outcome (predict _ rows_frame (failing_model "model exploded")
             example_data "alice")
    = inl {| status_code := 500; detail := "model exploded" |} /\
  predict_response unit allow_alice plain_unicode no_str_as_int no_str_as_float
      nan_passes
    _ rows_frame (failing_model "model exploded")
    {| authorization := Some tt; body := JSONObject example_body |}
    = {| status := 500; content := DetailJSON "model exploded" |}.
Proof.
  destruct (exceptions_in_predict_surface_as_500 _ rows_frame
              (failing_model "model exploded") example_data "alice"
              {| exc_class := "ValueError"; exc_str := "model exploded" |})
    as (Hrun & _ & Hresponse).
  - right. eexists. split; [reflexivity|]. left. reflexivity.
  - split; [exact Hrun|].
    apply Hresponse; [reflexivity | exact example_body_validates].
Defined.

(** ** Rendering of validation errors *)

Section RenderingFacts.

Variable unicode : PyStr.Unicode.

Lemma renders_false (v : json) :
  renders unicode v = false <-> unrenderable unicode v.
Proof.
  split.
  - destruct v as [| | | | |negative|s|[]]; simpl; try discriminate;
      intros H; by constructor.
  - by intros [|negative|s Hs|].
Qed.

Lemma input_renders_false (e : ValidationError) :
  input_renders unicode (input e) = false <-> quotes_unrenderable unicode e.
Proof.
  unfold quotes_unrenderable, input_renders.
  destruct (input e) as [v|b]; [apply renders_false|].
  rewrite bool_decide_eq_false, map_not_Forall by apply _.
  split; intros (key & v & Hkey & H); exists key, v; (split; [exact Hkey|]).
  - rewrite <- renders_false.
    destruct (PyStr.encodes unicode key), (renders unicode v); simpl in H;
      auto; by destruct H.
  - destruct H as [Hk | Hv%renders_false]; [by rewrite Hk|].
    rewrite Hv, andb_false_r. discriminate.
Qed.

(** The response to a body that does not validate: 422 with the errors
    when every input they quote can be rendered, else 500. *)
Lemma respond_validation_error (errors : list ValidationError) :
  ((forall e, e ∈ errors -> ~ quotes_unrenderable unicode e) /\
   respond unicode (inl (RequestValidationError errors)) =
     {| status := 422; content := ErrorsJSON errors |}) \/
  ((exists e, e ∈ errors /\ quotes_unrenderable unicode e) /\
   respond unicode (inl (RequestValidationError errors)) =
     {| status := 500; content := PlainText "Internal Server Error" |}).
Proof.
  simpl.
  destruct (forallb (fun e => input_renders unicode (input e)) errors) eqn:Hall.
  - left. split; [|reflexivity]. intros e He Hquote.
    rewrite forallb_forall in Hall.
    apply input_renders_false in Hquote.
    rewrite Hall in Hquote; [discriminate|]. by apply list_elem_of_In.
  - right. split; [|reflexivity].
    induction errors as [|e errors' IH]; [discriminate|].
    simpl in Hall. apply andb_false_iff in Hall as [He | Hrest].
    + exists e. split; [apply elem_of_cons; by left|].
      by apply input_renders_false.
    + destruct (IH Hrest) as (e' & Hin & Hquote).
      exists e'. split; [apply elem_of_cons; by right | exact Hquote].
Qed.

End RenderingFacts.

(** ** The prediction endpoint as a whole *)

Section PipelineFacts.

Variable Credentials : Type.
Variable depends_verify_token : option Credentials -> HTTPException + string.
Variable unicode : PyStr.Unicode.
Variable str_as_int : string -> ErrorType + Z.
Variable str_as_float : string -> ErrorType + pyfloat.
Variable float_nan : Z -> Z -> option ErrorType.
Variable Frame : Type.
Variable DataFrame : list (list (string * PyVal)) -> PyException + Frame.
Variable model_predict : Frame -> PyException + list Label.

Abbreviation run_request :=
  (post_predict Credentials depends_verify_token unicode
     str_as_int str_as_float float_nan
     Frame DataFrame model_predict).
Abbreviation response_to :=
  (predict_response Credentials depends_verify_token unicode
     str_as_int str_as_float float_nan Frame DataFrame model_predict).
Abbreviation validated :=
  (validate_body unicode str_as_int str_as_float float_nan).
Abbreviation run_predict := (predict Frame DataFrame model_predict).

(** The two ways the handler ends. *)
Lemma predict_cases (data : CustomerData) (user : string) :
  (exists err log,
     (DataFrame [model_dump_by_alias data] = inl err /\
        log = [EvPrint user; EvDataFrame] \/
      exists frame, DataFrame [model_dump_by_alias data] = inr frame /\
        (model_predict frame = inl err \/
         model_predict frame = inr [] /\ getitem_0 [] = inl err) /\
        log = [EvPrint user; EvDataFrame; EvModelPredict]) /\
     run_predict data user =
       (log, inl {| status_code := 500; detail := exc_str err |})) \/
  (exists frame label rest,
     DataFrame [model_dump_by_alias data] = inr frame /\
     model_predict frame = inr (label :: rest) /\
     run_predict data user =
       ([EvPrint user; EvDataFrame; EvModelPredict],
        inr {| prediction := if py_eq_1 label then "Churn" else "No Churn";
               risk_level := if py_eq_1 label then "Critical" else "Safe" |})).
Proof.
  unfold predict, call, bind, try_except, raise, ret.
  destruct (DataFrame [model_dump_by_alias data]) as [err|frame] eqn:Hframe;
    simpl.
  { left. exists err. eexists. split; [|reflexivity]. left. by split. }
  destruct (model_predict frame) as [err|[|label rest]] eqn:Hmodel; simpl.
  - left. exists err. eexists. split; [|reflexivity].
    right. exists frame. split; [done|]. split; [by left | reflexivity].
  - left.
    exists {| exc_class := "IndexError";
              exc_str := "index 0 is out of bounds for axis 0 with size 0" |}.
    eexists. split; [|reflexivity].
    right. exists frame. split; [done|].
    split; [right; by split | reflexivity].
  - right. by exists frame, label, rest.
Qed.

(** The ways a request ends, with its log. *)
Lemma request_cases (request : Request Credentials) :
  (body request = InvalidJSON /\
   run_request request =
     ([], inl (RequestValidationError [json_decode_error]))) \/
  (body request <> InvalidJSON /\
   exists err,
     depends_verify_token (authorization request) = inl err /\
     run_request request = ([EvVerifyToken], inl (HTTPError err))) \/
  (body request <> InvalidJSON /\
   exists user errs,
     depends_verify_token (authorization request) = inr user /\
     validated (body request) = inl errs /\
     run_request request =
       ([EvVerifyToken; EvValidateBody], inl (RequestValidationError errs))) \/
  (exists user data,
     depends_verify_token (authorization request) = inr user /\
     validated (body request) = inr data /\
     run_request request =
       (EvVerifyToken :: EvValidateBody :: events (run_predict data user),
        map_failure HTTPError (outcome (run_predict data user)))).
Proof.
  assert (Hdecodes : body request = InvalidJSON \/ body request <> InvalidJSON)
    by (destruct (body request); auto).
  destruct Hdecodes as [Hinvalid|Hdecodes].
  { left. split; [exact Hinvalid|]. by apply undecodable_body. }
  right.
  destruct (depends_verify_token (authorization request)) as [err|user] eqn:Hauth.
  { left. split; [exact Hdecodes|]. exists err.
    split; [reflexivity|]. by apply refused_by_dependency. }
  right.
  destruct (validated (body request)) as [errs|data] eqn:Hbody.
  { left. split; [exact Hdecodes|]. exists user, errs.
    split; [reflexivity|]. split; [reflexivity|].
    by apply rejected_by_validation with user. }
  right. exists user, data. split; [reflexivity|]. split; [reflexivity|].
  by apply handled.
Qed.

(** The errors of a body that is not an object quote that body. *)
Lemma validated_inl (body : RequestBody) (errs : list ValidationError) :
  validated body = inl errs ->
  (body = InvalidJSON /\ errs = [json_decode_error]) \/
  (exists v kind, body = JSONValue v /\
     errs = [ {| loc := "body"; type := kind; input := InValue v |} ]) \/
  (exists b, body = JSONObject b /\
     errs = field_errors unicode str_as_int str_as_float
         float_nan b /\ errs <> []).
Proof.
  destruct body as [|b|v]; simpl.
  - intros [= <-]. by left.
  - intros Hb%validate_inl. right; right. by exists b.
  - intros H. right; left. exists v.
    destruct v; injection H as <-; by eexists.
Qed.

(** C5, as amended: a [POST /predict] request whose token is accepted and
    whose body fails validation (a numeric field out of range, an invalid
    enum value, a missing field) never reaches the handler, and with it
    the model. It is answered with status 422 and the list of validation
    errors when every input the errors quote can be rendered as JSON, as
    is the case for every body whose keys and values can; when an error
    quotes a value that cannot, the error response itself fails and the
    answer is 500 "Internal Server Error", as is the case whenever one of
    the ten fields holds [Infinity] or [-Infinity], or the age or an enum
    field holds [NaN], all of which the JSON decoder accepts. *)
Theorem invalid_body_is_answered_422 (request : Request Credentials)
    (user : string) (errors : list ValidationError) :
  depends_verify_token (authorization request) = inr user ->
  validated (body request) = inl errors ->
  (forall ev, ev ∈ events (run_request request) ->
     ev = EvVerifyToken \/ ev = EvValidateBody) /\
  (body request <> InvalidJSON ->
     events (run_request request) = [EvVerifyToken; EvValidateBody]) /\
  ((forall e, e ∈ errors -> ~ quotes_unrenderable unicode e) ->
     response_to request = {| status := 422; content := ErrorsJSON errors |}) /\
  ((exists e, e ∈ errors /\ quotes_unrenderable unicode e) ->
     response_to request =
       {| status := 500; content := PlainText "Internal Server Error" |}) /\
  (forall b, body request = JSONObject b ->
     (forall key v, b !! key = Some v ->
        PyStr.encodes unicode key = true /\ ~ unrenderable unicode v) ->
     response_to request = {| status := 422; content := ErrorsJSON errors |}) /\
  (forall b name alias key v, body request = JSONObject b ->
     (name, alias) ∈ fields ->
     lookup_key model_config b alias name = Some (key, v) ->
     v = JInfinity false \/ v = JInfinity true \/
     (v = JNaN /\
      alias ∈ ["Age"; "Gender"; "Subscription Type"; "Contract Length"]) ->
     response_to request =
       {| status := 500; content := PlainText "Internal Server Error" |}).
Proof.
  intros Hauth Hbody.
  assert (Hrun : exists log,
            run_request request = (log, inl (RequestValidationError errors)) /\
            (log = [] \/ log = [EvVerifyToken; EvValidateBody]) /\
            (body request <> InvalidJSON ->
               log = [EvVerifyToken; EvValidateBody])).
  { destruct (request_cases request)
      as [[Hinvalid ->]
         | [(_ & err & Hauth' & _)
           | [(Hdecodes & user' & errs & _ & Hbody' & ->)
             | (user' & data & _ & Hbody' & _)]]]; [|congruence| |congruence].
    - rewrite Hinvalid in Hbody. injection Hbody as <-.
      eexists. split; [reflexivity|]. split; [by left | done].
    - rewrite Hbody in Hbody'. injection Hbody' as <-.
      eexists. split; [reflexivity|]. split; [by right | done]. }
  destruct Hrun as (log & Hrun & Hlog & Hdecoded).
  assert (Hclean : (forall e, e ∈ errors -> ~ quotes_unrenderable unicode e) ->
            response_to request =
              {| status := 422; content := ErrorsJSON errors |}).
  { intros Hnone. unfold predict_response. rewrite Hrun.
    unfold outcome. cbn [snd].
    destruct (respond_validation_error unicode errors)
      as [[_ ->] | [(e & He & Hquote) _]]; [reflexivity|].
    by destruct (Hnone e He). }
  assert (Hquoted : (exists e, e ∈ errors /\ quotes_unrenderable unicode e) ->
            response_to request =
              {| status := 500; content := PlainText "Internal Server Error" |}).
  { intros (e & He & Hquote). unfold predict_response. rewrite Hrun.
    unfold outcome. cbn [snd].
    destruct (respond_validation_error unicode errors)
      as [[Hnone _] | [_ ->]]; [|reflexivity].
    by destruct (Hnone e He). }
  split; [|split; [|split; [exact Hclean|split; [exact Hquoted|split]]]].
  - rewrite Hrun. unfold events. simpl.
    destruct Hlog as [-> | ->]; intros ev; rewrite ?elem_of_cons, elem_of_nil;
      tauto.
  - intros Hdecodes. rewrite Hrun. exact (Hdecoded Hdecodes).
  - intros b Hb Hplain. apply Hclean. intros e He Hquote.
    rewrite Hb in Hbody.
    apply validated_inl in Hbody as [[[=] _] | [(v & kind & [=] & _)
                                    | (b' & [= <-] & -> & _)]].
    apply field_errors_elem in He
      as (name & alias & _ & [(_ & _ & ->) | (v & Hinput & Hfound)]);
      unfold quotes_unrenderable in Hquote.
    + simpl in Hquote. destruct Hquote as (key & v & Hkey & Hbad).
      destruct (Hplain key v Hkey) as [Hk Hv].
      destruct Hbad as [Hbad | Hbad]; [congruence | contradiction].
    + rewrite Hinput in Hquote.
      destruct Hfound as [[_ Hkey] | (_ & _ & Hkey)];
        by destruct (Hplain _ v Hkey) as [_ Hv].
  - intros b name alias key v Hb Hin Hkey Hv. apply Hquoted.
    rewrite Hb in Hbody.
    apply validated_inl in Hbody as [[[=] _] | [(v' & kind & [=] & _)
                                    | (b' & [= <-] & -> & _)]].
    destruct (field_not_finite_fails unicode str_as_int str_as_float float_nan
                b name alias key v Hin Hkey Hv) as (e & He & Hinput).
    exists e. split; [exact He|]. unfold quotes_unrenderable. rewrite Hinput.
    destruct Hv as [-> | [-> | [-> _]]]; constructor.
Qed.

(** X7: a request runs the model at most once, and runs it only when the
    dependency has accepted the token, the body has validated and the
    frame has been built, in that order. *)
Theorem model_runs_only_for_valid_requests (request : Request Credentials) :
  (model_calls (events (run_request request)) <= 1)%nat /\
  (EvModelPredict ∈ events (run_request request) ->
   exists user data frame,
     depends_verify_token (authorization request) = inr user /\
     validated (body request) = inr data /\
     DataFrame [model_dump_by_alias data] = inr frame /\
     events (run_request request) =
       [EvVerifyToken; EvValidateBody; EvPrint user; EvDataFrame;
        EvModelPredict]).
Proof.
  destruct (request_cases request)
    as [[Hinvalid ->]
       | [(_ & err & Hauth & ->)
         | [(_ & user & errs & Hauth & Hbody & ->)
           | (user & data & Hauth & Hbody & ->)]]].
  - unfold events, model_calls; simpl. split; [lia|].
    by intros ?%elem_of_nil.
  - unfold events, model_calls; simpl. split; [lia|].
    rewrite !elem_of_cons, elem_of_nil. intros [H|[]]; discriminate.
  - unfold events, model_calls; simpl. split; [lia|].
    rewrite !elem_of_cons, elem_of_nil. intros [H|[H|[]]]; discriminate.
  - destruct (predict_cases data user)
      as [(err & log & Hraise & ->)
         | (frame & label & rest & Hframe & Hmodel & ->)];
      unfold events, model_calls; simpl.
    + destruct Hraise as [[Hframe ->] | (frame & Hframe & _ & ->)]; simpl.
      * split; [lia|]. rewrite !elem_of_cons, elem_of_nil.
        intros [H|[H|[H|[H|[]]]]]; discriminate.
      * split; [lia|]. intros _. by exists user, data, frame.
    + split; [lia|]. intros _. by exists user, data, frame.
Qed.


End PipelineFacts.

(** ** Tokens and registration *)

Section AuthFacts.

Variable SECRET_KEY : string.
Variable get_password_hash : string -> string.

Lemma verify_issued (now now' : Z) (subject : string) (ttl : Z) :
  verify SECRET_KEY now' (create_access_token SECRET_KEY now subject ttl) =
  if now + ttl <? now' then inl Expired else inr subject.
Proof.
  unfold verify, create_access_token. simpl.
  by rewrite decide_True.
Qed.



Abbreviation register_user ttl :=
  (register (gmap string string) Token (register_new_user get_password_hash)
     (create_access_token SECRET_KEY) ttl).

(** C7: on a store that does not hold the user name, a first registration
    succeeds and a second one under the same name fails: the store reports
    [AlreadyExists], the endpoint raises a 4xx error, and the store is left
    as the first registration made it, with one record more than before
    and the first password's hash under the name. Names are compared
    exactly: any other name that is free can still be registered. *)
Theorem register_twice_same_username (ttl : Z) (users : gmap string string)
    (now now' : Z) (name pass pass' : string) :
  users !! name = None ->
  exists users1 response err,
    register_user ttl users now {| username := name; password := pass |}
      = (users1, inr response) /\
    register_user ttl users1 now' {| username := name; password := pass' |}
      = (users1, inl err) /\
    400 <= status_code err < 500 /\
    store_register get_password_hash users1 name pass' = inl already_exists /\
    users1 !! name = Some (get_password_hash pass) /\
    size users1 = S (size users) /\
    (forall other pass'', other <> name -> users !! other = None ->
       exists users2 response',
         register_user ttl users1 now' {| username := other; password := pass'' |}
           = (users2, inr response')).
Proof.
  intros Hfresh.
  exists (<[name := get_password_hash pass]> users).
  unfold register, register_new_user, store_register. simpl.
  rewrite Hfresh, lookup_insert_eq. simpl.
  eexists _, _. split; [reflexivity|]. split; [reflexivity|]. simpl.
  split; [lia|]. split; [reflexivity|]. split; [reflexivity|].
  split; [by apply map_size_insert_None|].
  intros other pass'' Hother Hnone.
  rewrite lookup_insert_ne by done. rewrite Hnone. by eexists _, _.
Qed.

(** The token a registration returns opens [/predict] at once, and until
    it expires: the dependency accepts it as the registered user. *)
Lemma registered_token_is_accepted (ttl : Z) (users users1 : gmap string string)
    (now now' : Z) (user : UserAuth) (response : TokenResponse Token) :
  register_user ttl users now user = (users1, inr response) ->
  now' <= now + expires_in response ->
  verify_token SECRET_KEY now' (Some (access_token response))
    = inr (username user).
Proof.
  unfold register. destruct (register_new_user _ _ _) as [users' [err|[]]];
    intros [= <- <-]. cbn [access_token expires_in]. intros Hle.
  unfold verify_token. rewrite verify_issued. unfold timedelta_minutes.
  destruct (Z.ltb_spec (now + ttl * 60) now'); [lia | reflexivity].
Qed.

End AuthFacts.

Section RegisterFacts.

Variable Store : Type.
Variable T : Type.
Variable register_new_user : Store -> UserAuth -> Store * (HTTPException + unit).
Variable create_access_token : Z -> string -> Z -> T.
Variable ACCESS_TOKEN_EXPIRE_MINUTES : Z.

(** C8: when [register_new_user] records the user, [register] answers
    with a token response at once: its [access_token] is the token created
    for the registered user name (as ["sub"]) with the configured lifetime,
    its [token_type] is "Bearer" and its [expires_in] is that lifetime in
    seconds. *)
Theorem register_auto_issues_token (users users' : Store) (now : Z)
    (user : UserAuth) :
  register_new_user users user = (users', inr tt) ->
  register Store T register_new_user create_access_token
    ACCESS_TOKEN_EXPIRE_MINUTES users now user =
  (users',
   inr {| access_token :=
            create_access_token now (username user)
              (timedelta_minutes ACCESS_TOKEN_EXPIRE_MINUTES);
          token_type := "Bearer";
          expires_in := ACCESS_TOKEN_EXPIRE_MINUTES * 60 |}).
Proof. intros Hnew. unfold register. by rewrite Hnew. Qed.

End RegisterFacts.

(** ** The request pipeline at concrete inputs *)

Lemma invalid_body_errors :
  CustomerData_validate plain_unicode no_str_as_int no_str_as_float
      nan_passes invalid_body =
  inl [ {| loc := "Age"; type := greater_than_equal 3;
           input := InValue (JInt 2) |};
        {| loc := "Gender";
           type := value_error {| ve_subject := "Gender";
                                  ve_allowed := {[ "Male"; "Female" ]};
                                  ve_sent := "Other" |};
           input := InValue (JStr "Other") |};
        {| loc := "Tenure"; type := missing; input := InBody invalid_body |} ].
Proof. vm_compute. reflexivity. Qed.

(** A body that is JSON but not an object does not validate, whatever the
    schema's parameters: nothing is sent ([null]), or a text. With an
    accepted token both are answered 422. *)
Lemma not_an_object_is_answered_422 :
  validate_body plain_unicode no_str_as_int no_str_as_float nan_passes
    (JSONValue JNull)
    = inl [ {| loc := "body"; type := missing; input := InValue JNull |} ] /\
  validate_body plain_unicode no_str_as_int no_str_as_float nan_passes
    (JSONValue (JStr "Male"))
    = inl [ {| loc := "body"; type := model_attributes_type;
               input := InValue (JStr "Male") |} ] /\
  status (predict_response unit allow_alice plain_unicode
            no_str_as_int no_str_as_float nan_passes
            _ rows_frame (constant_model (LInt 1))
            {| authorization := Some tt; body := JSONValue JNull |}) = 422 /\
  status (predict_response unit allow_alice plain_unicode
            no_str_as_int no_str_as_float nan_passes
            _ rows_frame (constant_model (LInt 1))
            {| authorization := Some tt; body := JSONValue (JStr "Male") |})
    = 422.
Proof. repeat split; vm_compute; reflexivity. Qed.

(** Every key and value of that body can be rendered as JSON. *)
Lemma invalid_body_renders (key : string) (v : json) :
  invalid_body !! key = Some v ->
  PyStr.encodes plain_unicode key = true /\ ~ unrenderable plain_unicode v.
Proof.
  intros Hkey. split; [apply orb_true_r|].
  assert (Hall : map_Forall (fun _ v => renders plain_unicode v = true)
                   invalid_body)
    by (apply (bool_decide_unpack _); by vm_compute).
  intros Hv%renders_false. by rewrite (Hall key v Hkey) in Hv.
Qed.

(** The body with three invalid fields is answered 422 before the
    handler runs; the example body with an age of [NaN] is answered
    500. *)
Lemma invalid_body_is_answered_422_witness :
  status (predict_response unit allow_alice plain_unicode
            no_str_as_int no_str_as_float nan_passes
            _ rows_frame (constant_model (LInt 1))
            {| authorization := Some tt; body := JSONObject invalid_body |})
    = 422 /\
  events (post_predict unit allow_alice plain_unicode
            no_str_as_int no_str_as_float nan_passes
            _ rows_frame (constant_model (LInt 1))
            {| authorization := Some tt; body := JSONObject invalid_body |})
    = [EvVerifyToken; EvValidateBody] /\
  predict_response unit allow_alice plain_unicode no_str_as_int no_str_as_float
      nan_passes
    _ rows_frame (constant_model (LInt 1))
    {| authorization := Some tt;
       body := JSONObject (<["Age" := JNaN]> example_body) |}
    = {| status := 500; content := PlainText "Internal Server Error" |}.
Proof.
  destruct (invalid_body_is_answered_422 unit allow_alice plain_unicode
              no_str_as_int no_str_as_float nan_passes _ rows_frame
              (constant_model (LInt 1))
              {| authorization := Some tt; body := JSONObject invalid_body |}
              "alice" _ eq_refl invalid_body_errors)
    as (_ & Hlog & _ & _ & Hplain & _).
  split; [|split].
  - by rewrite (Hplain invalid_body eq_refl invalid_body_renders).
  - apply Hlog. discriminate.
  - refine (proj2 (proj2 (proj2 (proj2 (proj2
              (invalid_body_is_answered_422 unit allow_alice plain_unicode
                 no_str_as_int no_str_as_float nan_passes _ rows_frame
                 (constant_model (LInt 1))
                 {| authorization := Some tt;
                    body := JSONObject (<["Age" := JNaN]> example_body) |}
                 "alice"
                 [ {| loc := "Age"; type := finite_number;
                      input := InValue JNaN |} ]
                 eq_refl _)))))
              (<["Age" := JNaN]> example_body) "age" "Age" "Age" JNaN
              eq_refl _ _ _).
    + vm_compute. reflexivity.
    + unfold fields. rewrite !elem_of_cons. tauto.
    + vm_compute. reflexivity.
    + right; right. split; [reflexivity|]. rewrite !elem_of_cons. tauto.
Defined.

(** C5 refuted as stated: with a token the server issued itself and an
    age of 2, the response has status 422, not 500. *)
Lemma invalid_age_answered_422_not_500 :
  status (predict_response Token (verify_token "secret" 60) plain_unicode
            no_str_as_int no_str_as_float nan_passes
            _ rows_frame (constant_model (LInt 1))
            {| authorization :=
                 Some (create_access_token "secret" 0 "alice" 1800);
               body := JSONObject (<["Age" := JInt 2]> example_body) |}) = 422 /\
  status (predict_response unit allow_alice plain_unicode
            no_str_as_int no_str_as_float nan_passes
            _ rows_frame (constant_model (LInt 1))
            {| authorization := Some tt;
               body := JSONObject (<["Age" := JInt 2]> example_body) |}) = 422 /\
  422 <> 500.
Proof. split; [|split]; [vm_compute; reflexivity.. | lia]. Qed.

(** On an empty store: "alice" registers once, not twice; "Alice" is
    another name. *)
Lemma register_twice_same_username_witness :
  exists users1 response err,
    register (gmap string string) Token (register_new_user tagged_hash)
      (create_access_token "secret") 30 ∅ 0
      {| username := "alice"; password := "secret123" |}
      = (users1, inr response) /\
    register (gmap string string) Token (register_new_user tagged_hash)
      (create_access_token "secret") 30 users1 5
      {| username := "alice"; password := "other" |}
      = (users1, inl err) /\
    users1 !! "alice" = Some "hash:secret123" /\
    size users1 = 1%nat /\
    (exists users2 response',
       register (gmap string string) Token (register_new_user tagged_hash)
         (create_access_token "secret") 30 users1 5
         {| username := "Alice"; password := "other" |}
         = (users2, inr response')).
Proof.
  destruct (register_twice_same_username "secret" tagged_hash 30 ∅ 0 5
              "alice" "secret123" "other" (lookup_empty _))
    as (users1 & response & err & H1 & H2 & _ & _ & Hlookup & Hsize & Hother).
  exists users1, response, err.
  split; [exact H1|]. split; [exact H2|]. split; [exact Hlookup|].
  split; [exact Hsize|].
  apply Hother; [discriminate | reflexivity].
Defined.

(** Registering "alice" at time 0 with a 30-minute lifetime. *)
Lemma register_auto_issues_token_witness :
  register (gmap string string) Token (register_new_user tagged_hash)
    (create_access_token "secret") 30 ∅ 0
    {| username := "alice"; password := "secret123" |}
  = (<["alice" := "hash:secret123"]> ∅,
     inr {| access_token := create_access_token "secret" 0 "alice" 1800;
            token_type := "Bearer";
            expires_in := 1800 |}).
Proof.
  apply (register_auto_issues_token (gmap string string) Token
           (register_new_user tagged_hash) (create_access_token "secret") 30
           ∅ (<["alice" := "hash:secret123"]> ∅) 0
           {| username := "alice"; password := "secret123" |}).
  reflexivity.
Defined.



(** ** The login endpoint *)

Section LoginFacts.

Variable Store : Type.
Variable T : Type.
Variable U : Type.
Variable register_new_user : Store -> UserAuth -> Store * (HTTPException + unit).
Variable authenticate_user : Store -> UserAuth -> option U.
Variable create_access_token : Z -> string -> Z -> T.
Variable ACCESS_TOKEN_EXPIRE_MINUTES : Z.

(** X9: [login] answers 401 "Incorrect username or password" exactly when
    [authenticate_user] returns no user; when it returns one, for a user
    whose registration has just succeeded at the same clock reading,
    [login] returns the very response [register] returned. *)
Theorem login_answers_401_or_the_registration_token
    (users : Store) (now : Z) (user : UserAuth) :
  (authenticate_user users user = None <->
     login T U (authenticate_user users) create_access_token
       ACCESS_TOKEN_EXPIRE_MINUTES now user
     = inl {| status_code := 401; detail := "Incorrect username or password" |}) /\
  (forall users0 response,
     register Store T register_new_user create_access_token
       ACCESS_TOKEN_EXPIRE_MINUTES users0 now user = (users, inr response) ->
     is_Some (authenticate_user users user) ->
     login T U (authenticate_user users) create_access_token
       ACCESS_TOKEN_EXPIRE_MINUTES now user = inr response).
Proof.
  unfold login. split.
  - destruct (authenticate_user users user); split; done.
  - intros users0 response Hreg [u Hu]. rewrite Hu.
    unfold register in Hreg.
    destruct (register_new_user users0 user) as [users' [err|[]]];
      [discriminate|]. by injection Hreg as _ <-.
Qed.

End LoginFacts.

(** ** The form client *)

Section ClientFacts.

Variable requests_post :
  string -> gmap string json -> PyException + App.ClientResponse.

(** X10: [login_user] either stores the token of a 200 response that
    carries an ["access_token"], with the user name, shows the welcome and
    reruns the script, or leaves the session state as it was and shows one
    error; it never reruns after a failure. *)
Theorem login_user_logs_in_or_leaves_session
    (session_state : gmap string json) (username password : string) :
  (exists res data token,
     requests_post (App.BASE_URL ++ "/login")
       (list_to_map [("username", JStr username); ("password", JStr password)])
       = inr res /\
     App.res_status_code res = 200 /\
     App.res_json res = inr data /\
     data !! "access_token" = Some token /\
     App.login_user requests_post session_state username password =
       (<["username" := JStr username]> (<["token" := token]> session_state),
        [App.st_success (App.WelcomeBack username); App.st_rerun])) \/
  (exists message,
     App.login_user requests_post session_state username password =
       (session_state, [App.st_error message])).
Proof.
  unfold App.login_user.
  destruct (requests_post _ _) as [e|res] eqn:Hpost; [right; by eexists|].
  destruct (Z.eqb_spec (App.res_status_code res) 200) as [Hstatus|Hstatus];
    [|right; by eexists].
  destruct (App.res_json res) as [e|data] eqn:Hjson; [right; by eexists|].
  unfold App.getitem_access_token.
  destruct (data !! "access_token") as [token|] eqn:Htoken;
    [|right; by eexists].
  left. by exists res, data, token.
Qed.

End ClientFacts.

(** X11: initialising the session state keeps every entry it finds, a
    token included, adds only the two keys it lacks, and does nothing on a
    second run; after [logout] both keys hold [None] and a rerun keeps
    them so. *)
Theorem session_state_survives_reruns (session_state : gmap string json) :
  (forall key value, session_state !! key = Some value ->
     App.init_session session_state !! key = Some value) /\
  (forall key, key <> "token" -> key <> "username" ->
     App.init_session session_state !! key = session_state !! key) /\
  is_Some (App.init_session session_state !! "token") /\
  is_Some (App.init_session session_state !! "username") /\
  App.init_session (App.init_session session_state)
    = App.init_session session_state /\
  App.init_session (fst (App.logout session_state))
    = fst (App.logout session_state) /\
  fst (App.logout session_state) !! "token" = Some JNull /\
  fst (App.logout session_state) !! "username" = Some JNull.
Proof.
  assert (Hfixed : forall ss : gmap string json,
            is_Some (ss !! "token") -> is_Some (ss !! "username") ->
            App.init_session ss = ss).
  { intros ss [t Ht] [u Hu]. unfold App.init_session. by rewrite Ht, Hu. }
  assert (Hcases :
    (exists t u, session_state !! "token" = Some t /\
       session_state !! "username" = Some u /\
       App.init_session session_state = session_state) \/
    (exists t, session_state !! "token" = Some t /\
       session_state !! "username" = None /\
       App.init_session session_state = <["username" := JNull]> session_state) \/
    (exists u, session_state !! "token" = None /\
       session_state !! "username" = Some u /\
       App.init_session session_state = <["token" := JNull]> session_state) \/
    (session_state !! "token" = None /\
     session_state !! "username" = None /\
     App.init_session session_state =
       <["username" := JNull]> (<["token" := JNull]> session_state))).
  { unfold App.init_session.
    destruct (session_state !! "token") as [t|] eqn:Ht.
    - destruct (session_state !! "username") as [u|] eqn:Hu.
      + left. by exists t, u.
      + right. left. by exists t.
    - rewrite lookup_insert_ne by done.
      destruct (session_state !! "username") as [u|] eqn:Hu.
      + right. right. left. by exists u.
      + right. right. right. done. }
  destruct Hcases as [(t & u & Ht & Hu & ->)
                     | [(t & Ht & Hu & ->)
                       | [(u & Ht & Hu & ->) | (Ht & Hu & ->)]]].
  all: split; [|split; [|split; [|split; [|split; [|split; [|split]]]]]].
  all: try (intros key value Hkey;
            repeat (rewrite lookup_insert_ne by congruence); exact Hkey).
  all: try (intros key Hkt Hku; by rewrite ?lookup_insert_ne by done).
  all: try (apply Hfixed; simpl;
            repeat first [ rewrite lookup_insert_eq
                         | rewrite lookup_insert_ne by done ];
            rewrite ?Ht, ?Hu; by eexists).
  all: try (simpl;
            repeat first [ rewrite lookup_insert_eq
                         | rewrite lookup_insert_ne by done ];
            rewrite ?Ht, ?Hu; first [reflexivity | by eexists]).
Qed.

Section FormFacts.

Variable Credentials : Type.
Variable depends_verify_token : option Credentials -> HTTPException + string.
Variable unicode : PyStr.Unicode.
Variable str_as_int : string -> ErrorType + Z.
Variable str_as_float : string -> ErrorType + pyfloat.
Variable float_nan : Z -> Z -> option ErrorType.
Variable Frame : Type.
Variable DataFrame : list (list (string * PyVal)) -> PyException + Frame.
Variable model_predict : Frame -> PyException + list Label.

(** X12: every payload the prediction form can build, its values being
    within the bounds and options of its widgets, validates on the server,
    to the record of those values; sent with an accepted token it is
    answered 200 or 500, never 422. *)
Theorem form_payload_always_validates (v : App.FormValues)
    (credentials : option Credentials) (user : string) :
  App.within_widgets v ->
  CustomerData_validate unicode str_as_int str_as_float
      float_nan (App.payload v)
    = inr (App.as_record v) /\
  (depends_verify_token credentials = inr user ->
   status (predict_response Credentials depends_verify_token unicode
             str_as_int str_as_float float_nan Frame DataFrame model_predict
             {| authorization := credentials;
                body := JSONObject (App.payload v) |})
     ∈ [200; 500]).
Proof.
  intros (H1 & H2 & H3 & H4 & H5 & H6 & H7 & H8 & H9 & H10).
  assert (Hbody : CustomerData_validate unicode str_as_int str_as_float
      float_nan
                    (App.payload v) = inr (App.as_record v)).
  { apply validate_inr. repeat split; simpl.
    - apply (Field_lookup_alias _ _ _ _ (JInt (App.age v))); [reflexivity|].
      by apply int_ge_le_in_range.
    - apply (Field_lookup_alias _ _ _ _ (JStr (App.gender v))); [reflexivity|].
      by apply (str_with_clean unicode _ _ _ (gender_checked unicode)
                  (strip_title_fixed_gender unicode)).
    - apply (Field_lookup_alias _ _ _ _ (JFloat (App.tenure v)));
        [reflexivity|]. by apply float_ge_le_in_range.
    - apply (Field_lookup_alias _ _ _ _ (JFloat (App.usage v)));
        [reflexivity|]. by apply float_ge_le_in_range.
    - apply (Field_lookup_alias _ _ _ _ (JFloat (App.calls v)));
        [reflexivity|]. by apply float_ge_le_in_range.
    - apply (Field_lookup_alias _ _ _ _ (JFloat (App.delay v)));
        [reflexivity|]. by apply float_ge_le_in_range.
    - apply (Field_lookup_alias _ _ _ _ (JStr (App.sub_type v)));
        [reflexivity|].
      by apply (str_with_clean unicode _ _ _ (subscription_checked unicode)
                  (strip_title_fixed_subscription unicode)).
    - apply (Field_lookup_alias _ _ _ _ (JStr (App.contract v)));
        [reflexivity|].
      by apply (str_with_clean unicode _ _ _ (contract_checked unicode)
                  (strip_title_fixed_contract unicode)).
    - apply (Field_lookup_alias _ _ _ _ (JFloat (App.spend v)));
        [reflexivity|]. by apply float_ge_le_in_range.
    - apply (Field_lookup_alias _ _ _ _ (JFloat (App.last_inter v)));
        [reflexivity|]. by apply float_ge_le_in_range. }
  split; [exact Hbody|]. intros Hauth.
  unfold predict_response.
  rewrite (handled Credentials depends_verify_token unicode
             str_as_int str_as_float float_nan Frame DataFrame model_predict
             {| authorization := credentials;
                body := JSONObject (App.payload v) |}
             user (App.as_record v) Hauth Hbody).
  unfold outcome. cbn [snd].
  destruct (predict_cases Frame DataFrame model_predict (App.as_record v) user)
    as [(err & log & _ & ->) | (frame & label & rest & _ & _ & ->)]; simpl;
    rewrite !elem_of_cons; tauto.
Qed.

End FormFacts.

(** ** The further properties at concrete inputs *)


Lemma default_values_within_widgets : App.within_widgets App.default_values.
Proof.
  unfold App.within_widgets, App.default_values. simpl.
  repeat split; try lia; try (unfold Qle; simpl; lia);
    rewrite !elem_of_cons; tauto.
Qed.

(** The form's default values validate to the record they spell. *)
Lemma form_payload_always_validates_witness :
  CustomerData_validate plain_unicode no_str_as_int no_str_as_float nan_passes
    (App.payload App.default_values) = inr (App.as_record App.default_values).
Proof.
  exact (proj1 (form_payload_always_validates unit bearer_required
                  plain_unicode no_str_as_int no_str_as_float nan_passes
 _ rows_frame
                  (constant_model (LInt 1)) App.default_values None "alice"
                  default_values_within_widgets)).
Defined.
